(** * ZanzoCam camera: exposure control and overlay compositing

    A shallow embedding of [zanzocam/webcam/webcam/camera.py]: the
    luminance model, the exposure controller ([Camera.shoot_picture]
    with its calibration binary search), the calibration override of
    [Camera.__init__], and the overlay layout ([Overlay.__init__],
    [Overlay.compute_position]) with the compositor
    ([Camera.process_picture]).

    Conventions of the embedding:
    - Python [float] values (luminances, quotients of [/]) are
      rationals in [Q]; Python [int] values are in [Z]; image sizes,
      which PIL keeps non-negative, are in [N].  The exposure
      controller is followed with exact arithmetic on the luminances;
      the shutter-speed formula, whose result is turned into an
      integer, is also given with the arithmetic of IEEE 754 doubles
      ([round_double], [SHUTTER_SPEED_FROM_LUMINANCE_double]), and what
      is proved about the integer it returns is proved of that one.
    - A photo is represented by the luminance [LUMINANCE_FROM_PICTURE]
      measures on it; the pixel statistics behind that number are not
      modelled.
    - Python exceptions are values of [PyExc]; code that can raise
      returns a [result].
    - Logging has no effect on the results and is left out, except
      where a call to [log] itself raises. *)

From Stdlib Require Import ZArith QArith Qround Qabs Qpower List String Ascii Bool Lia Lqa.
Import ListNotations.

Local Open Scope Z_scope.

(** ** Python values and exceptions *)

Inductive PyExc : Type :=
| ZeroDivisionError
| TypeError
| ValueError
| IndexError
| NameError
| AttributeError
| RecursionError
| FileNotFoundError
| PermissionError
| UnicodeDecodeError
| OverflowError
| PiCameraError.

Inductive result (A : Type) : Type :=
| Ok (a : A)
| Raised (e : PyExc).

Arguments Ok {A} a.
Arguments Raised {A} e.

(** ** Python numerics *)

(** [x < y] on floats. *)
Definition Qlt_bool (x y : Q) : bool := negb (Qle_bool y x).

(** Python's [int(x)] on a float: truncation toward zero. *)
Definition py_int (x : Q) : Z := Z.quot (Qnum x) (Z.pos (Qden x)).

(** Python's true division [x / y]: raises on a zero divisor. *)
Definition py_truediv (x y : Q) : result Q :=
  if Qeq_bool y 0 then Raised ZeroDivisionError else Ok (x / y)%Q.

(** Python's built-in [round(x)] on a float: nearest integer, ties to
    the even neighbour.  The source never calls it; it is here to
    compare the code with a description of it that speaks of rounding,
    and as the rounding of a significand in [round_double]. *)
Definition py_round (x : Q) : Z :=
  let f := Qfloor x in
  let r := (x - inject_Z f)%Q in
  if Qlt_bool r (1 # 2) then f
  else if Qlt_bool (1 # 2) r then f + 1
  else if Z.even f then f else f + 1.

(** ** Double precision

    A Python [float] is an IEEE 754 binary64 number: zero, or
    [m * 2^e] with an integer [m] of at most 53 bits and
    [-1074 <= e <= 971], or an infinity.  Each arithmetic operation
    returns the double nearest to the exact result, the one with the
    even [m] when two are equally near, and an infinity when that
    rounding reaches [2^1024]. *)

(** The integer part of the binary logarithm of a positive rational. *)
Definition Qlog2 (x : Q) : Z :=
  let k := Z.log2 (Qnum x) - Z.log2 (Z.pos (Qden x)) in
  if Qle_bool (2 ^ k) x then k else k - 1.

(** The exponent [e] of the doubles next to a positive [x]: the one
    that leaves 53 bits before the binary point of [x / 2^e], and
    [-1074] in the subnormal range. *)
Definition binary64_exponent (x : Q) : Z := Z.max (-1074) (Qlog2 x - 52).

(** The double an exact result [x] is rounded to; [None] stands for an
    infinity. *)
Definition round_double (x : Q) : option Q :=
  if Qeq_bool x 0 then Some 0%Q else
  let e := binary64_exponent (Qabs x) in
  let m := py_round (Qabs x / 2 ^ e) in
  let r := (inject_Z m * 2 ^ e)%Q in
  if Qle_bool (2 ^ 1024) r then None
  else Some (if Qlt_bool x 0 then (- r)%Q else r).

(** [x / y] on finite floats: Python raises on a zero divisor, and
    otherwise returns the double of the quotient. *)
Definition float_truediv (x y : Q) : result (option Q) :=
  if Qeq_bool y 0 then Raised ZeroDivisionError else Ok (round_double (x / y)).

(** [x + y] for a finite [y]: an infinite [x] stays infinite. *)
Definition float_add (x : option Q) (y : Q) : option Q :=
  match x with
  | Some x => round_double (x + y)
  | None => None
  end.

(** [int(x)] on a float: truncation, and [OverflowError] on an
    infinity. *)
Definition int_of_float (x : option Q) : result Z :=
  match x with
  | Some x => Ok (py_int x)
  | None => Raised OverflowError
  end.

(** ** Luminance model: module-level constants and lambdas *)

Definition MINIMUM_DAYLIGHT_LUMINANCE : Q := 60.

(** Default parameters of the luminance/shutter-speed curve, the values
    the module binds to [LUM_SPEED_PARAM_A] and [LUM_SPEED_PARAM_B]. *)
Definition LUM_SPEED_PARAM_A_default : Q := 600000.
Definition LUM_SPEED_PARAM_B_default : Q := 60000.

(** [int(0.03 * 10**6)] and [int(3 * 10**6)]. *)
Definition MIN_SHUTTER_SPEED : Z := 30000.
Definition MAX_SHUTTER_SPEED : Z := 3000000.
Definition TARGET_LUMINOSITY_MARGIN : Q := 1.

(** [lambda lum, a, b: int(((a/lum) + b)) if lum < MINIMUM_DAYLIGHT_LUMINANCE else None]
    with exact arithmetic. *)
Definition SHUTTER_SPEED_FROM_LUMINANCE (lum a b : Q) : result (option Z) :=
  if Qlt_bool lum MINIMUM_DAYLIGHT_LUMINANCE then
    match py_truediv a lum with
    | Ok q => Ok (Some (py_int (q + b)))
    | Raised e => Raised e
    end
  else Ok None.

(** The same lambda with the arithmetic of doubles: [lum], [a] and [b]
    are the values of three finite floats (an [int] such as 600000
    converts to the float of the same value); the quotient and the sum
    are rounded, a quotient out of range is an infinity, and [int] of
    an infinity raises. *)
Definition SHUTTER_SPEED_FROM_LUMINANCE_double (lum a b : Q) : result (option Z) :=
  if Qlt_bool lum MINIMUM_DAYLIGHT_LUMINANCE then
    match float_truediv a lum with
    | Ok q =>
        match int_of_float (float_add q b) with
        | Ok speed => Ok (Some speed)
        | Raised e => Raised e
        end
    | Raised e => Raised e
    end
  else Ok None.

(** [lambda lum: lum if lum > MINIMUM_DAYLIGHT_LUMINANCE else lum+30 if lum < 30 else (lum/2) + 45] *)
Definition TARGET_LUMINANCE (lum : Q) : Q :=
  if Qlt_bool MINIMUM_DAYLIGHT_LUMINANCE lum then lum
  else if Qlt_bool lum 30 then (lum + 30)%Q
  else (lum / 2 + 45)%Q.

(** A photo, as far as exposure control looks at it: the value
    [LUMINANCE_FROM_RGB] computes on its mean channel values. *)
Record Photo : Type := { photo_luminance : Q }.

Definition LUMINANCE_FROM_PICTURE (photo : Photo) : Q := photo_luminance photo.

(** ** The world the camera code runs in *)

(** The capture device: what the [n]-th capture (counting from 0) of the
    run yields when the shutter speed is left automatic ([None]) or set
    to [Some s] microseconds.  [None] as an answer stands for a capture
    that raises. *)
Definition Device : Type := nat -> option Z -> option Photo.

(** A file the camera reads, as [os.path.exists], [open(path, 'r')] and
    the reading methods find it: absent; present but refused by [open]
    (a directory, a file without read permission), which raises [e];
    opened but not readable as text (bytes that do not decode), so that
    [read] and [readlines] raise [e]; or a text, given by its characters
    as stored. *)
Inductive File : Type :=
| Missing
| Unopenable (e : PyExc)
| Undecodable (e : PyExc)
| Text (content : string).

Record World : Type := {
  (** the module globals read by [SHUTTER_SPEED_FROM_PICTURE] *)
  LUM_SPEED_PARAM_A : Q;
  LUM_SPEED_PARAM_B : Q;
  (** the files [CALIBRATION], [CALIBRATED_PARAMS] and
      [luminance_speed_table.csv] *)
  calibration_flag_file : File;
  calibrated_parameters_file : File;
  calibration_csv : list (Q * Q * Z);
  (** the picture stored at [temp_photo_path] *)
  temp_photo : option Photo;
  (** the captures requested so far, oldest first, each with the shutter
      speed it set on the device *)
  shots : list (option Z)
}.

(** A text file with the given content, or no file at all. *)
Definition text_file (content : option string) : File :=
  match content with
  | Some s => Text s
  | None => Missing
  end.

(** The state of the module right after import, on a file system where
    each of the two calibration files is a readable text or is absent. *)
Definition initial_world (flag params : option string) : World :=
  {| LUM_SPEED_PARAM_A := LUM_SPEED_PARAM_A_default;
     LUM_SPEED_PARAM_B := LUM_SPEED_PARAM_B_default;
     calibration_flag_file := text_file flag;
     calibrated_parameters_file := text_file params;
     calibration_csv := [];
     temp_photo := None;
     shots := [] |}.

Definition record_shot (s : option Z) (p : option Photo) (w : World) : World :=
  {| LUM_SPEED_PARAM_A := LUM_SPEED_PARAM_A w;
     LUM_SPEED_PARAM_B := LUM_SPEED_PARAM_B w;
     calibration_flag_file := calibration_flag_file w;
     calibrated_parameters_file := calibrated_parameters_file w;
     calibration_csv := calibration_csv w;
     temp_photo := match p with Some _ => p | None => temp_photo w end;
     shots := shots w ++ [s] |}.

Definition append_csv (row : Q * Q * Z) (w : World) : World :=
  {| LUM_SPEED_PARAM_A := LUM_SPEED_PARAM_A w;
     LUM_SPEED_PARAM_B := LUM_SPEED_PARAM_B w;
     calibration_flag_file := calibration_flag_file w;
     calibrated_parameters_file := calibrated_parameters_file w;
     calibration_csv := calibration_csv w ++ [row];
     temp_photo := temp_photo w;
     shots := shots w |}.

(** Stateful code that may raise: the world is kept when it does, so
    that what happened before the exception can still be observed. *)
Definition M (A : Type) : Type := World -> result A * World.

Definition ret {A : Type} (a : A) : M A := fun w => (Ok a, w).

Definition bind {A B : Type} (c : M A) (k : A -> M B) : M B :=
  fun w =>
    match c w with
    | (Ok a, w') => k a w'
    | (Raised e, w') => (Raised e, w')
    end.

Definition raise {A : Type} (e : PyExc) : M A := fun w => (Raised e, w).

Declare Scope py_scope.
Delimit Scope py_scope with py.
Notation "x <- c ;; k" := (bind c (fun x => k))
  (at level 61, c at next level, right associativity) : py_scope.
Notation "c ;; k" := (bind c (fun _ => k))
  (at level 61, right associativity) : py_scope.
Local Open Scope py_scope.

(** ** Strings, as far as the source handles them *)

(** [needle in hay] *)
Fixpoint str_contains (needle hay : string) : bool :=
  if String.prefix needle hay then true
  else match hay with
       | EmptyString => false
       | String _ rest => str_contains needle rest
       end.

(** [s.split(sep)] for a one-character separator. *)
Fixpoint split_on (sep : ascii) (s : string) : list string :=
  match s with
  | EmptyString => [EmptyString]
  | String c rest =>
      if Ascii.eqb c sep then EmptyString :: split_on sep rest
      else match split_on sep rest with
           | [] => [String c EmptyString]
           | piece :: pieces => String c piece :: pieces
           end
  end.

(** What a file opened with [open(path, 'r')] hands to Python: text
    mode translates every line ending, a carriage return followed by a
    line feed, a lone carriage return or a lone line feed, into one line
    feed.  [after_cr] tells that the previous character was a carriage
    return, already translated. *)
Fixpoint universal_newlines (after_cr : bool) (s : string) : string :=
  match s with
  | EmptyString => EmptyString
  | String c rest =>
      if Ascii.eqb c "013"%char
      then String "010"%char (universal_newlines true rest)
      else if Ascii.eqb c "010"%char
      then if after_cr then universal_newlines false rest
           else String c (universal_newlines false rest)
      else String c (universal_newlines false rest)
  end.

(** [f.read()] on a text file with the characters [content]. *)
Definition read (content : string) : string := universal_newlines false content.

(** The lines of a text in which every line ends with a line feed, each
    with its line feed. *)
Fixpoint readlines_from (line : string) (s : string) : list string :=
  match s with
  | EmptyString =>
      match line with EmptyString => [] | _ => [line] end
  | String c rest =>
      if Ascii.eqb c "010"%char
      then (line ++ String c EmptyString)%string :: readlines_from EmptyString rest
      else readlines_from (line ++ String c EmptyString)%string rest
  end.

(** [f.readlines()] on a text file with the characters [content]. *)
Definition readlines (content : string) : list string :=
  readlines_from EmptyString (read content).

Definition lower_char (c : ascii) : ascii :=
  let n := N_of_ascii c in
  if (N.leb 65 n && N.leb n 90)%bool then ascii_of_N (n + 32) else c.

(** [s.lower()] (on the ASCII letters, which is all a valid position
    label can be made of). *)
Fixpoint lower (s : string) : string :=
  match s with
  | EmptyString => EmptyString
  | String c rest => String (lower_char c) (lower rest)
  end.

(** ** Images, overlay slots and the configuration *)

(** A PIL image: its size and its pixels (which the layout never
    inspects). *)
Record Image : Type := {
  width : N;
  height : N;
  raster : list N
}.

(** One entry of [configuration.overlays], by the keys of the overlay
    schema: those [Overlay.defaults] lists, with [type] and [path].  A
    slot is taken to carry no key named after an attribute that
    [Overlay.__init__] assigns itself.  [slot_type] is
    [data.get("type")] when that is a string; [None] covers both a
    missing key and a value of another type. *)
Record SlotData : Type := {
  slot_type : option string;
  slot_over_the_picture : option bool;
  slot_text : option string;
  slot_font_size : option Z;
  slot_path : option string;
  slot_width : option Z;
  slot_height : option Z;
  slot_padding_ratio : option Q
}.

(** The configuration object handed to [Camera]: the entries of
    [configuration.image] that this development follows, and
    [configuration.overlays] when the attribute exists.  The dictionary
    of overlays is kept as the list of its items, in iteration order. *)
Record Configuration : Type := {
  image_calibrate : option bool;
  image_date_format : option string;
  image_time_format : option string;
  config_overlays : option (list (string * SlotData))
}.

(** A [Camera] object: the attributes copied from [configuration.image],
    the [calibrate] entry of [self.defaults], and [self.overlays]. *)
Record Camera : Type := {
  attr_calibrate : option bool;
  attr_date_format : option string;
  attr_time_format : option string;
  defaults_calibrate : bool;
  overlays : list (string * SlotData)
}.

(** [Camera.__getattr__] supplies [self.defaults.get(name)] for the
    attributes the configuration did not set. *)
Definition self_calibrate (self : Camera) : bool :=
  match attr_calibrate self with
  | Some b => b
  | None => defaults_calibrate self
  end.

Definition self_date_format (self : Camera) : string :=
  match attr_date_format self with
  | Some s => s
  | None => "%d %B %Y"%string
  end.

Definition self_time_format (self : Camera) : string :=
  match attr_time_format self with
  | Some s => s
  | None => "%H:%M"%string
  end.

(** ** Camera.__init__ *)

(** [LUM_SPEED_PARAM_A, LUM_SPEED_PARAM_B = calib.readlines()[0].split(" ")]
    up to the binding: indexing an empty file raises [IndexError], and
    unpacking anything but two pieces raises [ValueError].  The pieces
    are strings; the source does not convert them. *)
Definition read_calibrated_parameters (content : string) : result (string * string) :=
  match readlines content with
  | [] => Raised IndexError
  | line :: _ =>
      match split_on " "%char line with
      | [a; b] => Ok (a, b)
      | _ => Raised ValueError
      end
  end.

(** The local frame of [__init__] after the block that reads
    [CALIBRATED_PARAMS]: [__init__] has no [global] statement, so the
    two names the tuple assignment binds are local variables of
    [__init__], in scope until it returns.  [None] when the file does
    not exist, cannot be opened, or the [except] clause swallowed a
    failure of the reading. *)
Definition init_local_parameters (w : World) : option (string * string) :=
  match calibrated_parameters_file w with
  | Text content =>
      match read_calibrated_parameters content with
      | Ok ab => Some ab
      | Raised _ => None
      end
  | _ => None
  end.

(** [open(path, 'r')] behind [if os.path.exists(path)]: both blocks of
    [__init__] open their file outside the [try], so an [open] that
    raises leaves [__init__]. *)
Definition open_if_exists (f : File) : result unit :=
  match f with
  | Unopenable e => Raised e
  | _ => Ok tt
  end.

(** The [try] block on the calibration flag: the value
    [self.defaults["calibrate"]] is left with.  A [read] that raises is
    logged by the [except] clause and the default stays [False]. *)
Definition read_calibration_flag (f : File) : bool :=
  match f with
  | Text content => str_contains "ON" (read content)
  | _ => false
  end.

(** [Camera.__init__]: reads the calibration flag into
    [self.defaults["calibrate"]], reads the overridden parameters into
    its local frame (used by the following [log] call only) and takes
    the overlays.  No statement of it writes a module global or a file,
    so the world comes back as it went in. *)
Definition Camera___init__ (configuration : Configuration) : M Camera :=
  fun w =>
    match open_if_exists (calibration_flag_file w) with
    | Raised e => (Raised e, w)
    | Ok _ =>
        let calibrate_default := read_calibration_flag (calibration_flag_file w) in
        match open_if_exists (calibrated_parameters_file w) with
        | Raised e => (Raised e, w)
        | Ok _ =>
            let _locals := init_local_parameters w in
            (Ok {| attr_calibrate := image_calibrate configuration;
                   attr_date_format := image_date_format configuration;
                   attr_time_format := image_time_format configuration;
                   defaults_calibrate := calibrate_default;
                   overlays := match config_overlays configuration with
                               | Some o => o
                               | None => []
                               end |},
             w)
        end
    end.

(** ** Exposure controller *)

(** [SHUTTER_SPEED_FROM_PICTURE]: the lambda looks the two parameters up
    in the module globals when it is called. *)
Definition SHUTTER_SPEED_FROM_PICTURE (photo : Photo) : M (option Z) :=
  fun w =>
    (SHUTTER_SPEED_FROM_LUMINANCE (LUMINANCE_FROM_PICTURE photo)
       (LUM_SPEED_PARAM_A w) (LUM_SPEED_PARAM_B w), w).

(** [Image.open(str(PATH / self.temp_photo_path))] *)
Definition open_temp_photo : M Photo :=
  fun w =>
    match temp_photo w with
    | Some p => (Ok p, w)
    | None => (Raised FileNotFoundError, w)
    end.

(** The state of the calibration search between two iterations. *)
Record Search : Type := {
  min_speed : Z;
  max_speed : Z;
  i : Z
}.

(** How an iteration of the [while True] loop ends: at one of the two
    [break] statements, with the speed and luminance of the last
    capture ([successful] tells which [break]), or at the bottom of the
    body, to go round again. *)
Inductive Flow : Type :=
| Break (successful : bool) (shutter_speed : Z) (new_luminance : Q) (st : Search)
| Continue (st : Search).

Section ExposureController.

Variable dev : Device.

(** [Camera._shoot_picture]: an unset or zero [shutter_speed] leaves the
    exposure automatic; the capture is made in either case and
    overwrites the temporary photo.  Resolution, flips, rotation and the
    warm-up delay are settings of the device and are not followed here. *)
Definition _shoot_picture (shutter_speed : option Z) : M unit :=
  fun w =>
    let setting :=
      match shutter_speed with
      | Some s => if Z.eqb s 0 then None else Some s
      | None => None
      end in
    match dev (List.length (shots w)) setting with
    | Some photo => (Ok tt, record_shot setting (Some photo) w)
    | None => (Raised PiCameraError, record_shot setting None w)
    end.

(** One pass through the body of the [while True] loop. *)
Definition calibration_iteration (luminance target_luminance : Q) (st : Search) : M Flow :=
  let i' := i st + 1 in
  let shutter_speed := py_int (inject_Z (min_speed st + max_speed st) / 2) in
  _shoot_picture (Some shutter_speed) ;;
  photo <- open_temp_photo ;;
  let new_luminance := LUMINANCE_FROM_PICTURE photo in
  if (Qle_bool (target_luminance - TARGET_LUMINOSITY_MARGIN) new_luminance
      && Qle_bool new_luminance (target_luminance + TARGET_LUMINOSITY_MARGIN))%bool
  then
    fun w =>
      (Ok (Break true shutter_speed new_luminance
             {| min_speed := min_speed st; max_speed := max_speed st; i := i' |}),
       append_csv (luminance, new_luminance, shutter_speed) w)
  else
    let st' :=
      if Qlt_bool new_luminance (target_luminance - TARGET_LUMINOSITY_MARGIN)
      then {| min_speed := shutter_speed; max_speed := max_speed st; i := i' |}
      else {| min_speed := min_speed st; max_speed := shutter_speed; i := i' |} in
    if Z.gtb (min_speed st' + 5) (max_speed st')
    then ret (Break false shutter_speed new_luminance st')
    else ret (Continue st').

(** The [while True] loop, with [fuel] bounding the number of passes:
    [None] means the fuel ran out before a [break]. *)
Fixpoint calibration_loop (fuel : nat) (luminance target_luminance : Q)
  (st : Search) (w : World) : option (result Flow * World) :=
  match fuel with
  | O => None
  | S fuel' =>
      match calibration_iteration luminance target_luminance st w with
      | (Ok (Continue st'), w') =>
          calibration_loop fuel' luminance target_luminance st' w'
      | (r, w') => Some (r, w')
      end
  end.

(** [Camera.shoot_picture] *)
Definition shoot_picture (fuel : nat) (self : Camera) (w : World)
  : option (result unit * World) :=
  match (_shoot_picture None ;; open_temp_photo) w with
  | (Raised e, w1) => Some (Raised e, w1)
  | (Ok photo, w1) =>
      let luminance := LUMINANCE_FROM_PICTURE photo in
      if Qle_bool MINIMUM_DAYLIGHT_LUMINANCE luminance then Some (Ok tt, w1)
      else if negb (self_calibrate self) then
        Some ((shutter_speed <- SHUTTER_SPEED_FROM_PICTURE photo ;;
               match shutter_speed with
               | None => raise TypeError
               | Some _ => _shoot_picture shutter_speed
               end) w1)
      else
        let target_luminance := TARGET_LUMINANCE luminance in
        match calibration_loop fuel luminance target_luminance
                {| min_speed := MIN_SHUTTER_SPEED;
                   max_speed := MAX_SHUTTER_SPEED;
                   i := 0 |} w1 with
        | None => None
        | Some (Raised e, w2) => Some (Raised e, w2)
        | Some (Ok _, w2) => Some (Ok tt, w2)
        end
  end.

End ExposureController.

(** ** Overlay *)

Definition rbind {A B : Type} (r : result A) (k : A -> result B) : result B :=
  match r with
  | Ok a => k a
  | Raised e => Raised e
  end.

Notation "x <~ r ;; k" := (rbind r (fun x => k))
  (at level 61, r at next level, right associativity) : py_scope.

(** An [Overlay] object, by the instance attributes [__init__] has
    assigned when it returns: the slot's own entries (copied by
    [setattr]), the two halves of the position label, and, only when
    [__init__] got that far, [self.defaults] and [self.rendered_image]
    ([attr_rendered_image] is [None] while the attribute is unassigned,
    [Some None] when it holds Python's [None]). *)
Record Overlay : Type := {
  data : SlotData;
  vertical_position : string;
  horizontal_position : string;
  has_defaults : bool;
  attr_rendered_image : option (option Image)
}.

(** Attribute look-up through [Overlay.__getattr__]: an attribute that
    was never assigned is looked up in [self.defaults]; when
    [self.defaults] was never assigned either, that look-up re-enters
    [__getattr__] without end and Python raises [RecursionError]. *)
Definition get_rendered_image (self : Overlay) : result (option Image) :=
  match attr_rendered_image self with
  | Some v => Ok v
  | None => if has_defaults self then Ok None else Raised RecursionError
  end.

Definition get_over_the_picture (self : Overlay) : result bool :=
  match slot_over_the_picture (data self) with
  | Some b => Ok b
  | None => if has_defaults self then Ok false else Raised RecursionError
  end.

(** [self.rendered_image.width] and [.height]: [None] has neither. *)
Definition rendered_image_size (self : Overlay) : result (N * N) :=
  r <~ get_rendered_image self ;;
  match r with
  | Some img => Ok (width img, height img)
  | None => Raised AttributeError
  end.

(** The [try] block of [Overlay.__init__] that stores the position. *)
Definition position_parts (position : string) : result (string * string) :=
  match split_on "_"%char (lower position) with
  | [v; h] =>
      if ((negb (String.eqb v "top") && negb (String.eqb v "bottom"))
          || (negb (String.eqb h "left") && negb (String.eqb h "center")
              && negb (String.eqb h "right")))%bool
      then Raised ValueError
      else Ok (v, h)
  | _ => Raised ValueError
  end.

(** [Overlay.compute_position] *)
Definition compute_position (self : Overlay)
  (image_width image_height border_top border_bottom : Z) : result (Z * Z) :=
  x <~ (if String.eqb (horizontal_position self) "left" then Ok 0
        else if String.eqb (horizontal_position self) "right" then
          size <~ rendered_image_size self ;;
          Ok (image_width - Z.of_N (fst size))
        else if String.eqb (horizontal_position self) "center" then
          size <~ rendered_image_size self ;;
          Ok (py_int (inject_Z (image_width - Z.of_N (fst size)) / 2))
        else Ok 0) ;;
  y <~ (if String.eqb (vertical_position self) "top" then
          over <~ get_over_the_picture self ;;
          Ok (if over then border_top else 0)
        else if String.eqb (vertical_position self) "bottom" then
          over <~ get_over_the_picture self ;;
          size <~ rendered_image_size self ;;
          Ok (if over
              then image_height - Z.of_N (snd size) - border_bottom
              else image_height - Z.of_N (snd size))
        else Ok 0) ;;
  Ok (x, y).

(** The canvas [process_picture] builds: its size and what was pasted
    on the background, in order, each with the corner it was pasted at. *)
Record Canvas : Type := {
  canvas_width : N;
  canvas_height : N;
  layers : list (Image * (Z * Z))
}.

Definition paste (im : Image) (box : Z * Z) (image : Canvas) : Canvas :=
  {| canvas_width := canvas_width image;
     canvas_height := canvas_height image;
     layers := layers image ++ [(im, box)] |}.

Section Compositor.

(** What rendering draws on depends on the fonts, the clock and the
    overlay image files of the machine.  [render_text] is the [try]
    block of [create_text_overlay], [None] when anything in it raised;
    [render_image] is [create_image_overlay] from [Image.open] on, given
    the file name of the slot. *)
Variable render_text : SlotData -> string -> string -> N -> N -> option Image.
Variable render_image : string -> SlotData -> option Image.

(** [Overlay.create_text_overlay]: the whole body is one [try] block,
    whose [except] clause logs and returns [None]. *)
Definition create_text_overlay (data : SlotData) (date_format time_format : string)
  (photo_width photo_height : N) : option Image :=
  render_text data date_format time_format photo_width photo_height.

(** [Overlay.create_image_overlay]: joining [IMAGE_OVERLAYS_PATH] with
    [self.path] happens outside any [try], and raises [TypeError] when
    the slot has no [path]. *)
Definition create_image_overlay (data : SlotData) : result (option Image) :=
  match slot_path data with
  | None => Raised TypeError
  | Some path => Ok (render_image path data)
  end.

(** [Overlay.__init__].  The [except] clause of the position block calls
    [log] with two arguments, which [utils.log] does not take, so that
    path leaves [__init__] with [TypeError]; the final [else] formats
    its message with the undefined name [kind] and leaves with
    [NameError]. *)
Definition Overlay___init__ (position : string) (data : SlotData)
  (photo_width photo_height : N) (date_format time_format : string)
  : result Overlay :=
  let date_format' :=
    if String.eqb date_format "" then "%d %B %Y"%string else date_format in
  let time_format' :=
    if String.eqb time_format "" then "%H:%M"%string else time_format in
  match position_parts position with
  | Raised _ => Raised TypeError
  | Ok (v, h) =>
      match slot_type data with
      | None =>
          Ok {| data := data; vertical_position := v; horizontal_position := h;
                has_defaults := false; attr_rendered_image := None |}
      | Some type =>
          if String.eqb type "" then
            Ok {| data := data; vertical_position := v; horizontal_position := h;
                  has_defaults := false; attr_rendered_image := None |}
          else if String.eqb type "text" then
            Ok {| data := data; vertical_position := v; horizontal_position := h;
                  has_defaults := true;
                  attr_rendered_image :=
                    Some (create_text_overlay data date_format' time_format'
                            photo_width photo_height) |}
          else if String.eqb type "image" then
            rendered <~ create_image_overlay data ;;
            Ok {| data := data; vertical_position := v; horizontal_position := h;
                  has_defaults := true; attr_rendered_image := Some rendered |}
          else Raised NameError
      end
  end.

(** The body of the first loop of [process_picture] for one slot: the
    overlay to append, if any; an exception is logged and the slot
    skipped. *)
Definition render_slot (self : Camera) (photo : Image)
  (slot : string * SlotData) : option Overlay :=
  match (overlay <~ Overlay___init__ (fst slot) (snd slot)
                      (width photo) (height photo)
                      (self_date_format self) (self_time_format self) ;;
         rendered <~ get_rendered_image overlay ;;
         Ok (match rendered with
             | Some _ => Some overlay
             | None => None
             end)) with
  | Ok o => o
  | Raised _ => None
  end.

Fixpoint create_overlays (self : Camera) (photo : Image)
  (slots : list (string * SlotData)) (rendered_overlays : list Overlay)
  : list Overlay :=
  match slots with
  | [] => rendered_overlays
  | slot :: rest =>
      match render_slot self photo slot with
      | Some overlay => create_overlays self photo rest (rendered_overlays ++ [overlay])
      | None => create_overlays self photo rest rendered_overlays
      end
  end.

(** The second loop: the size of the borders. *)
Fixpoint compute_borders (rendered_overlays : list Overlay)
  (border_top border_bottom : N) : result (N * N) :=
  match rendered_overlays with
  | [] => Ok (border_top, border_bottom)
  | overlay :: rest =>
      over <~ get_over_the_picture overlay ;;
      if negb over then
        if String.eqb (vertical_position overlay) "top" then
          size <~ rendered_image_size overlay ;;
          compute_borders rest (N.max border_top (snd size)) border_bottom
        else
          size <~ rendered_image_size overlay ;;
          compute_borders rest border_top (N.max border_bottom (snd size))
      else compute_borders rest border_top border_bottom
  end.

(** The third loop: pasting the overlays. *)
Fixpoint paste_overlays (rendered_overlays : list Overlay) (image : Canvas)
  (border_top border_bottom : N) : result Canvas :=
  match rendered_overlays with
  | [] => Ok image
  | overlay :: rest =>
      rendered <~ get_rendered_image overlay ;;
      match rendered with
      | Some im =>
          xy <~ compute_position overlay
                  (Z.of_N (canvas_width image)) (Z.of_N (canvas_height image))
                  (Z.of_N border_top) (Z.of_N border_bottom) ;;
          paste_overlays rest (paste im xy image) border_top border_bottom
      | None => paste_overlays rest image border_top border_bottom
      end
  end.

(** [Camera.process_picture], up to the canvas it is about to save.
    [photo] is [None] when the temporary photo cannot be opened; the
    method then returns without a canvas. *)
Definition process_picture (self : Camera) (photo : option Image)
  : result (option Canvas) :=
  match photo with
  | None => Ok None
  | Some photo =>
      let rendered_overlays := create_overlays self photo (overlays self) [] in
      borders <~ compute_borders rendered_overlays 0 0 ;;
      let border_top := fst borders in
      let border_bottom := snd borders in
      let total_height := (height photo + border_top + border_bottom)%N in
      let image := {| canvas_width := width photo;
                      canvas_height := total_height;
                      layers := [] |} in
      let image := paste photo (0, Z.of_N border_top) image in
      image <~ paste_overlays rendered_overlays image border_top border_bottom ;;
      Ok (Some image)
  end.

End Compositor.

(** ** Overlay.process_text *)

Section ProcessText.

(** The font and the drawing context: [font.getsize(s)[0]], the width
    the font gives the string [s], and [temp_draw.textsize(text, font)],
    the size of a whole text. *)
Variable getsize : string -> N.
Variable textsize : string -> N * N.

Variable max_line_length : N.

(** The inner loop over the words of a line that does not fit: the lines
    appended so far and the line being filled. *)
Fixpoint wrap_words (words : list string) (new_line : string)
  (lines : list string) : list string * string :=
  match words with
  | [] => (lines, new_line)
  | word :: rest =>
      if N.leb (getsize (new_line ++ word)) max_line_length
      then wrap_words rest (new_line ++ word ++ " ") lines
      else wrap_words rest (word ++ " ") (lines ++ [new_line])
  end%string.

(** The body of the outer loop, for one line of the text. *)
Definition wrap_line (lines : list string) (line : string) : list string :=
  if N.leb (getsize line) max_line_length then lines ++ [line]
  else
    let (lines', new_line) := wrap_words (split_on " "%char line) "" lines in
    if String.eqb new_line "" then lines' else lines' ++ [new_line].

(** [Overlay.process_text]: the new value of [self.text] and the size
    returned. *)
Definition process_text (text : string) : string * (N * N) :=
  let lines := fold_left wrap_line (split_on "010"%char text) [] in
  let text' := String.concat (String "010"%char EmptyString) lines in
  (text', textsize text').

End ProcessText.

(** ** Camera.take_picture and the retries of main *)

(** [Camera.take_picture]: shoot, then process; nothing is caught.
    [develop] gives the picture [process_picture] opens from the
    temporary file, [None] when it cannot be opened. *)
Definition take_picture (dev : Device)
  (render_text : SlotData -> string -> string -> N -> N -> option Image)
  (render_image : string -> SlotData -> option Image)
  (develop : Photo -> option Image)
  (fuel : nat) (self : Camera) (w : World)
  : option (result (option Canvas) * World) :=
  match shoot_picture dev fuel self w with
  | None => None
  | Some (Raised e, w') => Some (Raised e, w')
  | Some (Ok _, w') =>
      Some (process_picture render_text render_image self
              (match temp_photo w' with
               | Some photo => develop photo
               | None => None
               end), w')
  end.

(** What the loop [for _ in range(3)] of [main] leaves behind: the
    variable [camera], whether the loop ended at its [break], and how
    many times it slept [WAIT_AFTER_CAMERA_FAIL] seconds. *)
Record Attempts : Type := {
  camera_variable : option Camera;
  picture_taken : bool;
  waits : nat
}.

Section MainRetries.

(** [Camera(config.get_camera_settings())] and [camera.take_picture()],
    as main sees them: two calls that return or raise. *)
Variable new_camera : M Camera.
Variable camera_take_picture : Camera -> M unit.

(** [n] more rounds of the loop.  The assignment to [camera] happens as
    soon as the constructor returns, before [take_picture] is called. *)
Fixpoint take_picture_attempts (n : nat) (camera : option Camera) (slept : nat)
  (w : World) : Attempts * World :=
  match n with
  | O => ({| camera_variable := camera; picture_taken := false; waits := slept |}, w)
  | S n' =>
      match new_camera w with
      | (Raised _, w1) => take_picture_attempts n' camera (S slept) w1
      | (Ok c, w1) =>
          match camera_take_picture c w1 with
          | (Ok _, w2) =>
              ({| camera_variable := Some c; picture_taken := true; waits := slept |}, w2)
          | (Raised _, w2) => take_picture_attempts n' (Some c) (S slept) w2
          end
      end
  end.

(** The loop as [main] runs it: [camera = None] before, three rounds. *)
Definition main_take_picture (w : World) : Attempts * World :=
  take_picture_attempts 3 None 0 w.

(** [if not camera: return]: whether [main] goes on to
    [server.upload_picture]. *)
Definition main_uploads (a : Attempts) : bool :=
  match camera_variable a with
  | Some _ => true
  | None => false
  end.

End MainRetries.

(** ** Overlays of arbitrary slot data

    [Overlay.__init__] copies every entry of the slot's dictionary onto
    the new object, whatever its name and value, before it assigns any
    attribute of its own.  The definitions above follow the slots that
    carry the entries of the overlay schema; the ones below follow the
    same methods on any value the configuration may hold in a slot, with
    the instance dictionary of the object spelled out. *)

(** A Python value, as the decoded configuration and the attributes of
    an overlay hold it. *)
#[warnings="-register-all"]
Inductive PyVal : Type :=
| VNone
| VBool (b : bool)
| VInt (n : Z)
| VFloat (x : Q)
| VStr (s : string)
| VList (items : list PyVal)
| VTuple (items : list PyVal)
| VDict (items : list (string * PyVal))
| VImage (im : Image).

(** The truth value of [if value:] and [not value]. *)
Definition truthy (value : PyVal) : bool :=
  match value with
  | VNone => false
  | VBool b => b
  | VInt n => negb (Z.eqb n 0)
  | VFloat x => negb (Qeq_bool x 0)
  | VStr s => negb (String.eqb s "")
  | VList items => match items with [] => false | _ => true end
  | VTuple items => match items with [] => false | _ => true end
  | VDict items => match items with [] => false | _ => true end
  | VImage _ => true
  end.

(** [value == s] for a string literal [s]. *)
Definition is_str (value : PyVal) (s : string) : bool :=
  match value with
  | VStr s' => String.eqb s' s
  | _ => false
  end.

(** A dictionary with string keys is the list of its items, in
    iteration order, each key once.  [d.get(key)] and [d[key] = value]: *)
Fixpoint dict_get (key : string) (items : list (string * PyVal)) : option PyVal :=
  match items with
  | [] => None
  | (k, v) :: rest => if String.eqb k key then Some v else dict_get key rest
  end.

Fixpoint dict_set (key : string) (value : PyVal) (items : list (string * PyVal))
  : list (string * PyVal) :=
  match items with
  | [] => [(key, value)]
  | (k, v) :: rest =>
      if String.eqb k key then (k, value) :: rest
      else (k, v) :: dict_set key value rest
  end.

(** An [Overlay] object: its instance dictionary. *)
Definition Overlay_object : Type := list (string * PyVal).

(** [setattr(self, key, value)] on an [Overlay] object.  The class
    defines no [__setattr__] and no [__slots__], so the value lands in
    the instance dictionary, except for the three names that [object]
    and the class reserve with a data descriptor: [__class__] takes
    classes only, [__weakref__] cannot be written, and [__dict__]
    replaces the instance dictionary by the dictionary assigned. *)
Definition setattr (self : Overlay_object) (key : string) (value : PyVal)
  : result Overlay_object :=
  if String.eqb key "__class__" then Raised TypeError
  else if String.eqb key "__weakref__" then Raised AttributeError
  else if String.eqb key "__dict__" then
    match value with
    | VDict items => Ok items
    | _ => Raised TypeError
    end
  else Ok (dict_set key value self).

(** [for key, value in data.items(): setattr(self, key, value)] *)
Fixpoint setattr_items (self : Overlay_object) (items : list (string * PyVal))
  : result Overlay_object :=
  match items with
  | [] => Ok self
  | (key, value) :: rest =>
      self' <~ setattr self key value ;;
      setattr_items self' rest
  end.

(** [Overlay.__getattr__], which Python calls for a name found neither
    in the instance dictionary nor in the class: it evaluates
    [self.defaults.get(name, None)].  While the object has no attribute
    [defaults], evaluating [self.defaults] calls [__getattr__] again,
    without end, and Python raises [RecursionError]; a [defaults] that
    is not a dictionary has no [get]. *)
Definition Overlay___getattr__ (self : Overlay_object) (name : string)
  : result PyVal :=
  match dict_get "defaults" self with
  | None => Raised RecursionError
  | Some (VDict defaults) =>
      Ok (match dict_get name defaults with
          | Some value => value
          | None => VNone
          end)
  | Some _ => Raised AttributeError
  end.

(** [self.name], for a name that is not one of the methods of the
    class. *)
Definition getattr (self : Overlay_object) (name : string) : result PyVal :=
  match dict_get name self with
  | Some value => Ok value
  | None => Overlay___getattr__ self name
  end.

(** [self.name(...)] for a method [name] of the class whose body is
    [body]: an instance attribute of that name hides the method, and no
    value of the configuration can be called. *)
Definition call_method {A : Type} (self : Overlay_object) (name : string)
  (body : result A) : result A :=
  match dict_get name self with
  | Some _ => Raised TypeError
  | None => body
  end.

(** [value.width] and [value.height]: only an image has them. *)
Definition image_of (value : PyVal) : result Image :=
  match value with
  | VImage im => Ok im
  | _ => Raised AttributeError
  end.

(** The dictionary [__init__] assigns to [self.defaults]. *)
Definition Overlay_defaults : list (string * PyVal) :=
  [("font_size", VInt 25);
   ("padding_ratio", VFloat (2 # 10));
   ("text", VStr "~~~ DEFAULT TEXT ~~~");
   ("font_color", VTuple [VInt 0; VInt 0; VInt 0]);
   ("background_color", VTuple [VInt 255; VInt 255; VInt 255; VInt 0]);
   ("image", VStr "fallback-pixel.png");
   ("width", VNone);
   ("heigth", VNone);
   ("over_the_picture", VBool false)]%string.

(** Python's [None] for a missing image. *)
Definition image_or_None (rendered : option Image) : PyVal :=
  match rendered with
  | Some im => VImage im
  | None => VNone
  end.

(** [Overlay.compute_position] on such an object. *)
Definition compute_position_raw (self : Overlay_object)
  (image_width image_height border_top border_bottom : Z) : result (Z * Z) :=
  horizontal <~ getattr self "horizontal_position" ;;
  x <~ (if is_str horizontal "left" then Ok 0
        else if is_str horizontal "right" then
          rendered <~ getattr self "rendered_image" ;;
          im <~ image_of rendered ;;
          Ok (image_width - Z.of_N (width im))
        else if is_str horizontal "center" then
          rendered <~ getattr self "rendered_image" ;;
          im <~ image_of rendered ;;
          Ok (py_int (inject_Z (image_width - Z.of_N (width im)) / 2))
        else Ok 0) ;;
  vertical <~ getattr self "vertical_position" ;;
  y <~ (if is_str vertical "top" then
          over <~ getattr self "over_the_picture" ;;
          Ok (if truthy over then border_top else 0)
        else if is_str vertical "bottom" then
          over <~ getattr self "over_the_picture" ;;
          rendered <~ getattr self "rendered_image" ;;
          im <~ image_of rendered ;;
          Ok (if truthy over
              then image_height - Z.of_N (height im) - border_bottom
              else image_height - Z.of_N (height im))
        else Ok 0) ;;
  Ok (x, y).

Section RawCompositor.

(** Rendering, as in the section [Compositor], but given the object
    itself: [render_text_raw] is the [try] block of
    [create_text_overlay] run on the object with the size of the photo,
    [render_image_raw] is [create_image_overlay] from [Image.open] on;
    each is [None] when its [except] clause returned.  Both methods
    read the attributes of the object, and reassign [text], [width] and
    [height], which nothing reads after them. *)
Variable render_text_raw : Overlay_object -> N -> N -> option Image.
Variable render_image_raw : string -> Overlay_object -> option Image.

(** [Overlay.__init__] up to the assignment of [self.defaults]: the
    object, and the type of the overlay when the method goes on to
    render it ([None] when it returned at the check of the type). *)
Definition Overlay___init___attributes (position : string) (data : PyVal)
  (date_format time_format : string)
  : result (Overlay_object * option string) :=
  match data with
  | VDict items =>
      self <~ setattr_items [] items ;;
      let self :=
        dict_set "date_format"
          (VStr (if String.eqb date_format "" then "%d %B %Y" else date_format))
          self in
      let self :=
        dict_set "time_format"
          (VStr (if String.eqb time_format "" then "%H:%M" else time_format))
          self in
      match position_parts position with
      | Raised _ => Raised TypeError
      | Ok (v, h) =>
          let self := dict_set "vertical_position" (VStr v) self in
          let self := dict_set "horizontal_position" (VStr h) self in
          match dict_get "type" items with
          | Some (VStr type) =>
              if String.eqb type "" then Ok (self, None)
              else
                let self := dict_set "type" (VStr type) self in
                let self := dict_set "rendered_image" VNone self in
                let self := dict_set "defaults" (VDict Overlay_defaults) self in
                Ok (self, Some type)
          | _ => Ok (self, None)
          end
      end
  | _ => Raised AttributeError
  end.

(** [Overlay.__init__] on any slot data: the object it leaves.  The
    dictionary [data] has no [items] unless it is a dictionary; the
    [except] clause of the position block calls [log] with two
    arguments and leaves with [TypeError]; and the final [else] leaves
    with [NameError], as in [Overlay___init__]. *)
Definition Overlay___init___raw (position : string) (data : PyVal)
  (photo_width photo_height : N) (date_format time_format : string)
  : result Overlay_object :=
  attributes <~ Overlay___init___attributes position data date_format time_format ;;
  let self := fst attributes in
  match snd attributes with
  | None => Ok self
  | Some type =>
      if String.eqb type "text" then
        rendered <~ call_method self "create_text_overlay"
                      (Ok (render_text_raw self photo_width photo_height)) ;;
        Ok (dict_set "rendered_image" (image_or_None rendered) self)
      else if String.eqb type "image" then
        rendered <~ call_method self "create_image_overlay"
                      (path <~ getattr self "path" ;;
                       match path with
                       | VStr path => Ok (render_image_raw path self)
                       | _ => Raised TypeError
                       end) ;;
        Ok (dict_set "rendered_image" (image_or_None rendered) self)
      else Raised NameError
  end.

(** The body of the first loop of [process_picture] for one slot. *)
Definition render_slot_raw (date_format time_format : string) (photo : Image)
  (slot : string * PyVal) : option Overlay_object :=
  match (overlay <~ Overlay___init___raw (fst slot) (snd slot)
                      (width photo) (height photo) date_format time_format ;;
         rendered <~ getattr overlay "rendered_image" ;;
         Ok (if truthy rendered then Some overlay else None)) with
  | Ok o => o
  | Raised _ => None
  end.

Fixpoint create_overlays_raw (date_format time_format : string) (photo : Image)
  (slots : list (string * PyVal)) (rendered_overlays : list Overlay_object)
  : list Overlay_object :=
  match slots with
  | [] => rendered_overlays
  | slot :: rest =>
      match render_slot_raw date_format time_format photo slot with
      | Some overlay =>
          create_overlays_raw date_format time_format photo rest
            (rendered_overlays ++ [overlay])
      | None =>
          create_overlays_raw date_format time_format photo rest rendered_overlays
      end
  end.

End RawCompositor.

(** The second loop, which no [try] protects. *)
Fixpoint compute_borders_raw (rendered_overlays : list Overlay_object)
  (border_top border_bottom : N) : result (N * N) :=
  match rendered_overlays with
  | [] => Ok (border_top, border_bottom)
  | overlay :: rest =>
      over <~ getattr overlay "over_the_picture" ;;
      if negb (truthy over) then
        vertical <~ getattr overlay "vertical_position" ;;
        rendered <~ getattr overlay "rendered_image" ;;
        im <~ image_of rendered ;;
        if is_str vertical "top" then
          compute_borders_raw rest (N.max border_top (height im)) border_bottom
        else
          compute_borders_raw rest border_top (N.max border_bottom (height im))
      else compute_borders_raw rest border_top border_bottom
  end.

(** The third loop.  [image.paste] takes the size of the region from
    the image pasted or from the mask, and raises [ValueError] when
    neither is an image. *)
Fixpoint paste_overlays_raw (rendered_overlays : list Overlay_object)
  (image : Canvas) (border_top border_bottom : N) : result Canvas :=
  match rendered_overlays with
  | [] => Ok image
  | overlay :: rest =>
      rendered <~ getattr overlay "rendered_image" ;;
      if truthy rendered then
        xy <~ call_method overlay "compute_position"
                (compute_position_raw overlay
                   (Z.of_N (canvas_width image)) (Z.of_N (canvas_height image))
                   (Z.of_N border_top) (Z.of_N border_bottom)) ;;
        match rendered with
        | VImage im =>
            paste_overlays_raw rest (paste im xy image) border_top border_bottom
        | _ => Raised ValueError
        end
      else paste_overlays_raw rest image border_top border_bottom
  end.

(** [Camera.process_picture] for a camera whose date and time formats
    resolve to [date_format] and [time_format] and whose overlays are
    the items [slots]. *)
Definition process_picture_raw
  (render_text_raw : Overlay_object -> N -> N -> option Image)
  (render_image_raw : string -> Overlay_object -> option Image)
  (date_format time_format : string) (slots : list (string * PyVal))
  (photo : option Image) : result (option Canvas) :=
  match photo with
  | None => Ok None
  | Some photo =>
      let rendered_overlays :=
        create_overlays_raw render_text_raw render_image_raw
          date_format time_format photo slots [] in
      borders <~ compute_borders_raw rendered_overlays 0 0 ;;
      let border_top := fst borders in
      let border_bottom := snd borders in
      let total_height := (height photo + border_top + border_bottom)%N in
      let image := {| canvas_width := width photo;
                      canvas_height := total_height;
                      layers := [] |} in
      let image := paste photo (0, Z.of_N border_top) image in
      image <~ paste_overlays_raw rendered_overlays image border_top border_bottom ;;
      Ok (Some image)
  end.

(** * Vocabulary of the statements, and samples

    Nothing below this line is translated from the source: these are
    the notions the properties are stated with, and the concrete
    devices, cameras and pictures they are tried on. *)

(** The search keeps [0 < min_speed <= max_speed]. *)
Definition bounds_ok (st : Search) : Prop :=
  0 < min_speed st /\ min_speed st <= max_speed st.

(** The midpoint the next pass will try. *)
Definition midpoint (st : Search) : Z :=
  py_int (inject_Z (min_speed st + max_speed st) / 2).

(** The state a pass ends in. *)
Definition state_of (flow : Flow) : Search :=
  match flow with
  | Break _ _ _ st => st
  | Continue st => st
  end.

(** An upper bound on the distance between the bounds after a pass. *)
Definition half_up (width : Z) : Z := (width + 1) / 2.

(** The state reached after [n] full passes of the loop, when each of
    them went round again. *)
Fixpoint calibration_passes (dev : Device) (luminance target_luminance : Q)
  (n : nat) (st : Search) (w : World) : option (Search * World) :=
  match n with
  | O => Some (st, w)
  | S n' =>
      match calibration_iteration dev luminance target_luminance st w with
      | (Ok (Continue st'), w') =>
          calibration_passes dev luminance target_luminance n' st' w'
      | _ => None
      end
  end.

Definition is_break (flow : Flow) : Prop :=
  match flow with
  | Break _ _ _ _ => True
  | Continue _ => False
  end.

(** The state in which [shoot_picture] enters the loop. *)
Definition search_start : Search :=
  {| min_speed := MIN_SHUTTER_SPEED; max_speed := MAX_SHUTTER_SPEED; i := 0 |}.

(** A device whose first frame has luminance [first] and every later
    frame luminance [later], whatever the shutter speed. *)
Definition two_level_device (first later : Q) : Device :=
  fun n _ => Some {| photo_luminance := if Nat.eqb n 0 then first else later |}.

(** A camera without overlays whose [calibrate] attribute resolves to
    [calibrate]. *)
Definition plain_camera (calibrate : bool) : Camera :=
  {| attr_calibrate := None;
     attr_date_format := None;
     attr_time_format := None;
     defaults_calibrate := calibrate;
     overlays := [] |}.

(** The world once the first, automatic capture of a run has produced a
    frame of luminance [lum]. *)
Definition after_first_shot (lum : Q) : World :=
  record_shot None (Some {| photo_luminance := lum |}) (initial_world None None).

(** The world after a dim first frame (luminance 10, target 40) and 19
    passes of the search against frames that are always too bright. *)
Definition world_after_19_passes : World :=
  Eval vm_compute in
    match calibration_passes (two_level_device 10 255) 10 40 19 search_start
            (after_first_shot 10) with
    | Some (_, w) => w
    | None => after_first_shot 10
    end.

Definition no_configuration : Configuration :=
  {| image_calibrate := None;
     image_date_format := None;
     image_time_format := None;
     config_overlays := None |}.


(** The state of the module right after import, with the two
    calibration files in any condition. *)
Definition world_with_files (flag params : File) : World :=
  {| LUM_SPEED_PARAM_A := LUM_SPEED_PARAM_A_default;
     LUM_SPEED_PARAM_B := LUM_SPEED_PARAM_B_default;
     calibration_flag_file := flag;
     calibrated_parameters_file := params;
     calibration_csv := [];
     temp_photo := None;
     shots := [] |}.

(** The six position labels. *)
Definition position_labels : list string :=
  ["top_left"; "top_center"; "top_right";
   "bottom_left"; "bottom_center"; "bottom_right"]%string.

(** What [self.over_the_picture] resolves to on an overlay that has its
    defaults. *)
Definition over_the_picture_flag (self : Overlay) : bool :=
  match slot_over_the_picture (data self) with
  | Some b => b
  | None => false
  end.

(** An overlay as the first loop of [process_picture] keeps it: built to
    the end by [__init__], with an image and a valid position. *)
Definition well_rendered (self : Overlay) : Prop :=
  has_defaults self = true /\
  (exists img, attr_rendered_image self = Some (Some img)) /\
  (vertical_position self = "top"%string \/ vertical_position self = "bottom"%string) /\
  (horizontal_position self = "left"%string \/
   horizontal_position self = "center"%string \/
   horizontal_position self = "right"%string).

(** The rendered heights of the overlays anchored at [edge] that do not
    float over the picture. *)
Fixpoint border_heights (edge : string) (rendered_overlays : list Overlay) : list N :=
  match rendered_overlays with
  | [] => []
  | overlay :: rest =>
      match attr_rendered_image overlay with
      | Some (Some img) =>
          if (String.eqb (vertical_position overlay) edge
              && negb (over_the_picture_flag overlay))%bool
          then height img :: border_heights edge rest
          else border_heights edge rest
      | _ => border_heights edge rest
      end
  end.

(** [m] is the greatest element of [l], or 0 when [l] is empty. *)
Definition is_max_or_zero (m : N) (l : list N) : Prop :=
  (l = [] /\ m = 0%N) \/ (In m l /\ Forall (fun h => (h <= m)%N) l).

Definition list_max (l : list N) : N := fold_right N.max 0%N l.

(** The same camera with other overlays. *)
Definition set_overlays (self : Camera) (slots : list (string * SlotData)) : Camera :=
  {| attr_calibrate := attr_calibrate self;
     attr_date_format := attr_date_format self;
     attr_time_format := attr_time_format self;
     defaults_calibrate := defaults_calibrate self;
     overlays := slots |}.

(** A rendered overlay centred at the bottom of the picture. *)
Definition sample_slot (type : string) (over : bool) : SlotData :=
  {| slot_type := Some type;
     slot_over_the_picture := Some over;
     slot_text := Some "ZanzoCam"%string;
     slot_font_size := None;
     slot_path := Some "logo.png"%string;
     slot_width := None;
     slot_height := None;
     slot_padding_ratio := None |}.

Definition sample_overlay (v h : string) (over : bool) (img : Image) : Overlay :=
  {| data := sample_slot "image" over;
     vertical_position := v;
     horizontal_position := h;
     has_defaults := true;
     attr_rendered_image := Some (Some img) |}.

Definition blank (w h : N) : Image := {| width := w; height := h; raster := [] |}.

(** Rendering that draws every text 40 by 20 and every image 12 by 10. *)
Definition sample_render_text : SlotData -> string -> string -> N -> N -> option Image :=
  fun _ _ _ _ _ => Some (blank 40 20).

Definition sample_render_image : string -> SlotData -> option Image :=
  fun _ _ => Some (blank 12 10).

Definition camera_with (slots : list (string * SlotData)) : Camera :=
  set_overlays (plain_camera false) slots.

(** Whether the character [c] occurs in [s]. *)
Fixpoint occurs (c : ascii) (s : string) : bool :=
  match s with
  | EmptyString => false
  | String d rest => (Ascii.eqb d c || occurs c rest)%bool
  end.

(** The words of a list, each followed by a space, in one string. *)
Fixpoint spaced (words : list string) : string :=
  match words with
  | [] => EmptyString
  | word :: rest => (word ++ " " ++ spaced rest)%string
  end.

(** The strings of a list one after the other. *)
Fixpoint glued (pieces : list string) : string :=
  match pieces with
  | [] => EmptyString
  | piece :: rest => (piece ++ glued rest)%string
  end.

(** A line as the word loop of [process_text] emits it: empty, or a body
    followed by one space, where the body fits the width or is a single
    word. *)
Definition wrapped_line_ok (getsize : string -> N) (max_line_length : N)
  (out : string) : Prop :=
  out = EmptyString \/
  exists body,
    out = (body ++ " ")%string /\
    ((getsize body <= max_line_length)%N \/ occurs " "%char body = false).

(** A font in which every character is 10 wide, and a drawing context
    that reports the width of the text as if on one line, 15 high. *)
Definition sample_getsize (s : string) : N := (10 * N.of_nat (String.length s))%N.

Definition sample_textsize (s : string) : N * N := (sample_getsize s, 15%N).




(** The speed of every capture in [speeds] lies strictly between the
    two ends of the calibration range. *)
Definition speeds_in_range (speeds : list Z) : Prop :=
  Forall (fun z => MIN_SHUTTER_SPEED < z < MAX_SHUTTER_SPEED) speeds.

(** A device whose frames depend on the shutter speed alone: luminance
    [f z] at speed [z], and [first] while the exposure is automatic. *)
Definition speed_device (first : Q) (f : Z -> Q) : Device :=
  fun _ setting =>
    match setting with
    | Some z => Some {| photo_luminance := f z |}
    | None => Some {| photo_luminance := first |}
    end.

(** A sensor that is black below 100 milliseconds, white above, and
    gives luminance 40 at 100 milliseconds exactly. *)
Definition narrow_response (z : Z) : Q :=
  if Z.ltb z 100000 then 0 else if Z.eqb z 100000 then 40 else 255.

(** The world after a dim first frame (luminance 10, target 40) and a
    full search against the narrow sensor. *)
Definition world_after_narrow_search : World :=
  Eval vm_compute in
    match calibration_loop (speed_device 10 narrow_response) 20 10 40 search_start
            (after_first_shot 10) with
    | Some (_, w) => w
    | None => after_first_shot 10
    end.

(** Where an overlay lies with respect to the photo, which occupies the
    rows from [border_top] to [border_top + height photo] of the canvas:
    an overlay outside the picture stays within its border, an overlay
    over the picture touches the top or the bottom edge of the photo
    from inside, and [left] and [right] overlays touch the sides of the
    canvas. *)
Definition placed (photo : Image) (border_top border_bottom : N)
  (o : Overlay) (layer : Image * (Z * Z)) : Prop :=
  let img := fst layer in
  let x := fst (snd layer) in
  let y := snd (snd layer) in
  let top_of_photo := Z.of_N border_top in
  let bottom_of_photo := Z.of_N border_top + Z.of_N (height photo) in
  let canvas_bottom := bottom_of_photo + Z.of_N border_bottom in
  attr_rendered_image o = Some (Some img) /\
  (vertical_position o = "top"%string ->
   if over_the_picture_flag o then y = top_of_photo
   else y = 0 /\ y + Z.of_N (height img) <= top_of_photo) /\
  (vertical_position o = "bottom"%string ->
   if over_the_picture_flag o then y + Z.of_N (height img) = bottom_of_photo
   else bottom_of_photo <= y /\ y + Z.of_N (height img) = canvas_bottom) /\
  (horizontal_position o = "left"%string -> x = 0) /\
  (horizontal_position o = "right"%string ->
   x + Z.of_N (width img) = Z.of_N (width photo)).



(** [camera.take_picture()] as [main] calls it, with fuel enough for any
    calibration search. *)
Definition camera_take_picture_20 (dev : Device)
  (render_text : SlotData -> string -> string -> N -> N -> option Image)
  (render_image : string -> SlotData -> option Image)
  (develop : Photo -> option Image) (self : Camera) : M unit :=
  fun w =>
    match take_picture dev render_text render_image develop 20 self w with
    | Some (Ok _, w') => (Ok tt, w')
    | Some (Raised e, w') => (Raised e, w')
    | None => (Raised RecursionError, w)
    end.

(** A develop function for samples: every photo opens as a 64 by 48
    picture. *)
Definition sample_develop (photo : Photo) : option Image := Some (blank 64 48).

(** * Properties *)

(** ** Numerics *)

Lemma Qlt_bool_iff (x y : Q) : Qlt_bool x y = true <-> (x < y)%Q.
Proof.
  unfold Qlt_bool. rewrite negb_true_iff.
  split; intro H.
  - apply Qnot_le_lt. intro Hle.
    apply Qle_bool_iff in Hle. congruence.
  - destruct (Qle_bool y x) eqn:E; [|reflexivity].
    apply Qle_bool_iff in E. exfalso. apply (Qlt_not_le _ _ H E).
Qed.

Lemma Qlt_bool_false_iff (x y : Q) : Qlt_bool x y = false <-> (y <= x)%Q.
Proof.
  unfold Qlt_bool. rewrite negb_false_iff. apply Qle_bool_iff.
Qed.

Lemma Qle_bool_false_iff (x y : Q) : Qle_bool x y = false <-> (y < x)%Q.
Proof.
  rewrite <- Qlt_bool_iff. unfold Qlt_bool. rewrite negb_true_iff. tauto.
Qed.

Lemma Qeq_bool_false_of_pos (x : Q) : (0 < x)%Q -> Qeq_bool x 0 = false.
Proof.
  intro H. destruct (Qeq_bool x 0) eqn:E; [|reflexivity].
  apply Qeq_bool_iff in E. rewrite E in H. exfalso. apply (Qlt_irrefl _ H).
Qed.

(** Case analysis on a float comparison, leaving the order fact as a
    hypothesis in each branch. *)
Ltac case_Qlt x y :=
  let E := fresh "E" in
  destruct (Qlt_bool x y) eqn:E;
  [apply Qlt_bool_iff in E | apply Qlt_bool_false_iff in E].

Ltac case_Qle x y :=
  let E := fresh "E" in
  destruct (Qle_bool x y) eqn:E;
  [apply Qle_bool_iff in E | apply Qle_bool_false_iff in E].

(** On non-negative floats truncation is the floor. *)
Lemma py_int_floor (x : Q) : (0 <= x)%Q -> py_int x = Qfloor x.
Proof.
  destruct x as [n d]. unfold Qle, py_int, Qfloor. simpl. intro H.
  apply Z.quot_div_nonneg; lia.
Qed.

(** [int(n / 2)] for an integer [n] is the quotient truncated toward zero. *)
Lemma py_int_half (n : Z) : py_int (inject_Z n / 2) = Z.quot n 2.
Proof.
  unfold py_int, Qdiv, Qmult, Qinv, inject_Z. simpl.
  rewrite Z.mul_1_r. reflexivity.
Qed.

Lemma Qfloor_lt_of_add1 (x y : Q) : (x + 1 <= y)%Q -> Qfloor x < Qfloor y.
Proof.
  intro H.
  assert (Hy : (y < inject_Z (Qfloor y + 1))%Q) by apply Qlt_floor.
  assert (Hx : (inject_Z (Qfloor x) <= x)%Q) by apply Qfloor_le.
  rewrite inject_Z_plus in Hy.
  change (inject_Z 1) with 1%Q in Hy.
  assert (Hz : (inject_Z (Qfloor x) < inject_Z (Qfloor y))%Q) by lra.
  rewrite <- Zlt_Qlt in Hz. exact Hz.
Qed.

Lemma Qhalf (x : Q) : (x / 2 == x * (1 # 2))%Q.
Proof. reflexivity. Qed.




(** ** Rounding to the nearest integer *)






(** ** Powers of two and the binary logarithm *)









(** ** Rounding to binary64 *)















(** ** Luminance model *)

Lemma TARGET_LUMINANCE_bright (x : Q) : (60 < x)%Q -> (TARGET_LUMINANCE x == x)%Q.
Proof.
  intro H. unfold TARGET_LUMINANCE, MINIMUM_DAYLIGHT_LUMINANCE.
  case_Qlt 60%Q x; [reflexivity | lra].
Qed.

Lemma TARGET_LUMINANCE_dark (x : Q) : (x < 30)%Q -> (TARGET_LUMINANCE x == x + 30)%Q.
Proof.
  intro H. unfold TARGET_LUMINANCE, MINIMUM_DAYLIGHT_LUMINANCE.
  case_Qlt 60%Q x; [lra|].
  case_Qlt x 30%Q; [reflexivity | lra].
Qed.

Lemma TARGET_LUMINANCE_dim (x : Q) :
  (30 <= x)%Q -> (x <= 60)%Q -> (TARGET_LUMINANCE x == x / 2 + 45)%Q.
Proof.
  intros H1 H2. unfold TARGET_LUMINANCE, MINIMUM_DAYLIGHT_LUMINANCE.
  case_Qlt 60%Q x; [lra|].
  case_Qlt x 30%Q; [lra | reflexivity].
Qed.

(** Below the daylight threshold, and above it, the curve rises with
    slope at most one. *)
Lemma TARGET_LUMINANCE_slope (x y : Q) :
  (x <= y)%Q -> (y <= 60)%Q \/ (60 < x)%Q ->
  (TARGET_LUMINANCE x <= TARGET_LUMINANCE y)%Q /\
  (TARGET_LUMINANCE y - TARGET_LUMINANCE x <= y - x)%Q.
Proof.
  intros Hxy [Hy | Hx].
  - destruct (Qlt_le_dec x 30) as [Hx30 | Hx30];
      destruct (Qlt_le_dec y 30) as [Hy30 | Hy30].
    + rewrite (TARGET_LUMINANCE_dark x Hx30), (TARGET_LUMINANCE_dark y Hy30).
      split; lra.
    + rewrite (TARGET_LUMINANCE_dark x Hx30), (TARGET_LUMINANCE_dim y Hy30 Hy).
      rewrite Qhalf. split; lra.
    + lra.
    + assert (Hx60 : (x <= 60)%Q) by lra.
      rewrite (TARGET_LUMINANCE_dim x Hx30 Hx60), (TARGET_LUMINANCE_dim y Hy30 Hy).
      rewrite !Qhalf. split; lra.
  - assert (Hy : (60 < y)%Q) by lra.
    rewrite (TARGET_LUMINANCE_bright x Hx), (TARGET_LUMINANCE_bright y Hy).
    split; lra.
Qed.

(** C4, as the code has it: [TARGET_LUMINANCE] is [lum] above 60,
    [lum + 30] below 30 and [lum/2 + 45] in between; it is non-decreasing
    and continuous (it rises by no more than its argument does) on the
    luminances up to 60 and, separately, on those above 60; and it maps
    29 to 59, 30 to 60, 60 to 75 and 61 to 61.  Across 60 the curve
    drops, see [TARGET_LUMINANCE_drops_at_60]. *)
Theorem TARGET_LUMINANCE_curve (x y : Q)
  (Hxy : (x <= y)%Q) (Hside : (y <= 60)%Q \/ (60 < x)%Q) :
  ((60 < x)%Q -> (TARGET_LUMINANCE x == x)%Q) /\
  ((x < 30)%Q -> (TARGET_LUMINANCE x == x + 30)%Q) /\
  ((30 <= x)%Q -> (x <= 60)%Q -> (TARGET_LUMINANCE x == x / 2 + 45)%Q) /\
  (TARGET_LUMINANCE x <= TARGET_LUMINANCE y)%Q /\
  (TARGET_LUMINANCE y - TARGET_LUMINANCE x <= y - x)%Q /\
  (TARGET_LUMINANCE 29 == 59)%Q /\
  (TARGET_LUMINANCE 30 == 60)%Q /\
  (TARGET_LUMINANCE 60 == 75)%Q /\
  (TARGET_LUMINANCE 61 == 61)%Q.
Proof.
  destruct (TARGET_LUMINANCE_slope x y Hxy Hside) as [Hmono Hlip].
  repeat split; try assumption; try reflexivity.
  - apply TARGET_LUMINANCE_bright.
  - apply TARGET_LUMINANCE_dark.
  - apply TARGET_LUMINANCE_dim.
Qed.

Lemma TARGET_LUMINANCE_curve_witness :
  (TARGET_LUMINANCE 20 <= TARGET_LUMINANCE 40)%Q /\
  (TARGET_LUMINANCE 40 - TARGET_LUMINANCE 20 <= 40 - 20)%Q.
Proof.
  assert (Hxy : (20 <= 40)%Q) by (vm_compute; discriminate).
  assert (Hside : (40 <= 60)%Q \/ (60 < 20)%Q) by (left; vm_compute; discriminate).
  destruct (TARGET_LUMINANCE_curve 20 40 Hxy Hside) as (_ & _ & _ & H1 & H2 & _).
  split; assumption.
Defined.

(** C4, as stated, fails at 60: the curve is not non-decreasing on the
    non-negative luminances, since 60 is sent to 75 and 61 to 61. *)
Lemma TARGET_LUMINANCE_not_monotone :
  (0 <= 60)%Q /\ (60 <= 61)%Q /\
  (TARGET_LUMINANCE 60 == 75)%Q /\ (TARGET_LUMINANCE 61 == 61)%Q /\
  ~ (TARGET_LUMINANCE 60 <= TARGET_LUMINANCE 61)%Q.
Proof.
  repeat split; try (vm_compute; discriminate).
  vm_compute. intro H. apply H. reflexivity.
Qed.

(** The drop at 60 in full: every luminance just above 60 has a target
    more than 14 below that of 60, so the curve is not continuous there. *)
Lemma TARGET_LUMINANCE_drops_at_60 (x : Q) :
  (60 < x)%Q -> (x < 61)%Q -> (14 < TARGET_LUMINANCE 60 - TARGET_LUMINANCE x)%Q.
Proof.
  intros H1 H2. rewrite (TARGET_LUMINANCE_bright x H1).
  assert (H60 : (TARGET_LUMINANCE 60 == 75)%Q) by reflexivity.
  rewrite H60. lra.
Qed.

Lemma SHUTTER_SPEED_FROM_LUMINANCE_low (lum a b : Q) :
  (0 < lum)%Q -> (lum < 60)%Q ->
  SHUTTER_SPEED_FROM_LUMINANCE lum a b = Ok (Some (py_int (a / lum + b))).
Proof.
  intros Hpos Hlt. unfold SHUTTER_SPEED_FROM_LUMINANCE, MINIMUM_DAYLIGHT_LUMINANCE.
  case_Qlt lum 60%Q; [|lra].
  unfold py_truediv. rewrite (Qeq_bool_false_of_pos lum Hpos). reflexivity.
Qed.

Lemma SHUTTER_SPEED_FROM_LUMINANCE_daylight (lum a b : Q) :
  (60 <= lum)%Q -> SHUTTER_SPEED_FROM_LUMINANCE lum a b = Ok None.
Proof.
  intro H. unfold SHUTTER_SPEED_FROM_LUMINANCE, MINIMUM_DAYLIGHT_LUMINANCE.
  case_Qlt lum 60%Q; [lra | reflexivity].
Qed.

Lemma SHUTTER_SPEED_FROM_LUMINANCE_zero (lum a b : Q) :
  (lum == 0)%Q -> SHUTTER_SPEED_FROM_LUMINANCE lum a b = Raised ZeroDivisionError.
Proof.
  intro H. unfold SHUTTER_SPEED_FROM_LUMINANCE, MINIMUM_DAYLIGHT_LUMINANCE.
  case_Qlt lum 60%Q; [|lra].
  unfold py_truediv. apply Qeq_bool_iff in H. rewrite H. reflexivity.
Qed.

(** The quotient [A/lum] of the default curve falls as [lum] grows. *)
Lemma default_speed_nonneg (x : Q) : (0 < x)%Q -> (0 <= 600000 / x + 60000)%Q.
Proof.
  intro Hx.
  assert (H : (0 <= 600000 / x)%Q) by (apply Qle_shift_div_l; lra).
  lra.
Qed.














(** The formula in doubles, on samples.  At 13, 59 and the double next
    to 59.001 the speeds are those of the exact arithmetic, 106153 and
    twice 70169.  At the double after 30, [30 + 2^-48], the exact sum
    lies just below 80000 and truncates to 79999, while the double of
    the sum is 80000.  At the smallest positive double, [2^-1074], the
    quotient is an infinity and [int] raises.  At 0, at 30 and from 60
    on the two definitions agree. *)
Example SHUTTER_SPEED_FROM_LUMINANCE_double_samples :
  SHUTTER_SPEED_FROM_LUMINANCE_double 13 600000 60000 = Ok (Some 106153) /\
  SHUTTER_SPEED_FROM_LUMINANCE_double 59 600000 60000 = Ok (Some 70169) /\
  (exists lum,
     round_double (59001 # 1000) = Some lum /\
     SHUTTER_SPEED_FROM_LUMINANCE_double lum 600000 60000 = Ok (Some 70169)) /\
  round_double (30 + (1 # 2 ^ 48)) = Some (30 + (1 # 2 ^ 48))%Q /\
  SHUTTER_SPEED_FROM_LUMINANCE_double (30 + (1 # 2 ^ 48)) 600000 60000
  = Ok (Some 80000) /\
  SHUTTER_SPEED_FROM_LUMINANCE (30 + (1 # 2 ^ 48)) 600000 60000
  = Ok (Some 79999) /\
  round_double (1 # 2 ^ 1074) = Some (1 # 2 ^ 1074)%Q /\
  SHUTTER_SPEED_FROM_LUMINANCE_double (1 # 2 ^ 1074) 600000 60000
  = Raised OverflowError /\
  SHUTTER_SPEED_FROM_LUMINANCE_double 0 600000 60000 = Raised ZeroDivisionError /\
  SHUTTER_SPEED_FROM_LUMINANCE_double 30 600000 60000
  = SHUTTER_SPEED_FROM_LUMINANCE 30 600000 60000 /\
  SHUTTER_SPEED_FROM_LUMINANCE_double 30 500000 50000
  = SHUTTER_SPEED_FROM_LUMINANCE 30 500000 50000 /\
  SHUTTER_SPEED_FROM_LUMINANCE_double 60 600000 60000 = Ok None.
Proof.
  split; [vm_compute; reflexivity|].
  split; [vm_compute; reflexivity|].
  split; [eexists; split; [vm_compute; reflexivity|]; vm_compute; reflexivity|].
  repeat match goal with |- _ /\ _ => split end; vm_compute; reflexivity.
Qed.

(** ** Calibration search *)

Lemma midpoint_between (st : Search) :
  bounds_ok st ->
  midpoint st = (min_speed st + max_speed st) / 2 /\
  min_speed st <= midpoint st <= max_speed st.
Proof.
  intros [Hpos Hle]. unfold midpoint. rewrite py_int_half.
  rewrite Z.quot_div_nonneg by lia.
  split; [reflexivity|].
  pose proof (Z.div_mod (min_speed st + max_speed st) 2 ltac:(lia)) as Hdm.
  pose proof (Z.mod_pos_bound (min_speed st + max_speed st) 2 ltac:(lia)) as Hm.
  lia.
Qed.

Lemma half_up_mono (a b : Z) : a <= b -> half_up a <= half_up b.
Proof. intro H. unfold half_up. apply Z.div_le_mono; lia. Qed.

Lemma iter_half_up_mono (n : nat) (a b : Z) :
  a <= b -> Nat.iter n half_up a <= Nat.iter n half_up b.
Proof.
  intro H. induction n as [|n IH]; simpl; [exact H | apply half_up_mono, IH].
Qed.

Lemma iter_half_up_shift (n : nat) (a : Z) :
  Nat.iter n half_up (half_up a) = Nat.iter (S n) half_up a.
Proof.
  induction n as [|n IH]; simpl; [reflexivity | rewrite IH; reflexivity].
Qed.

(** Arithmetic on halves: name every quotient by 2 in the goal with its
    division equation, then leave the rest to [lia]. *)
Ltac solve_halving :=
  repeat match goal with
         | |- context [?a / 2] =>
             let q := fresh "q" in
             let Hq := fresh "Hq" in
             pose proof (Z.div_mod a 2 ltac:(lia)) as Hq;
             pose proof (Z.mod_pos_bound a 2 ltac:(lia));
             set (q := a / 2) in *
         end;
  lia.

Section CalibrationFacts.

Variable dev : Device.
Variables luminance target_luminance : Q.

(** What one pass of the loop does: it makes exactly one capture, at the
    midpoint, and then either raises, breaks, or goes round again with
    the counter incremented, the bounds still in order, at least 5 apart
    and at most half as far apart (rounded up) as before. *)
Lemma calibration_iteration_spec (st : Search) (w : World) :
  bounds_ok st ->
  exists r w',
    calibration_iteration dev luminance target_luminance st w = (r, w') /\
    shots w' = shots w ++ [Some (midpoint st)] /\
    match r with
    | Raised _ => True
    | Ok (Break _ speed _ st') =>
        speed = midpoint st /\ i st' = i st + 1
    | Ok (Continue st') =>
        bounds_ok st' /\ i st' = i st + 1 /\
        min_speed st' + 5 <= max_speed st' /\
        max_speed st' - min_speed st' <= half_up (max_speed st - min_speed st)
    end.
Proof.
  intro Hok.
  destruct (midpoint_between st Hok) as [Hmid Hbetween].
  destruct Hok as [Hpos Hle].
  assert (Hnz : Z.eqb (midpoint st) 0 = false) by (apply Z.eqb_neq; lia).
  unfold calibration_iteration, bind, _shoot_picture, open_temp_photo.
  fold (midpoint st). rewrite Hnz.
  destruct (dev (List.length (shots w)) (Some (midpoint st))) as [photo|] eqn:Edev.
  - simpl temp_photo. cbv beta iota.
    destruct (Qle_bool (target_luminance - TARGET_LUMINOSITY_MARGIN)
                (LUMINANCE_FROM_PICTURE photo)
              && Qle_bool (LUMINANCE_FROM_PICTURE photo)
                   (target_luminance + TARGET_LUMINOSITY_MARGIN))%bool eqn:Emargin.
    + eexists; eexists. split; [reflexivity|]. simpl. auto.
    + destruct (Qlt_bool (LUMINANCE_FROM_PICTURE photo)
                  (target_luminance - TARGET_LUMINOSITY_MARGIN)); simpl.
      * destruct (Z.gtb_spec (midpoint st + 5) (max_speed st)) as [Hgt | Hgt].
        -- eexists; eexists. split; [reflexivity|]. simpl. auto.
        -- eexists; eexists. split; [reflexivity|]. simpl.
           unfold bounds_ok, half_up. simpl.
           repeat split; try lia.
           rewrite Hmid. clear Hmid Hbetween Hnz.
           solve_halving.
      * destruct (Z.gtb_spec (min_speed st + 5) (midpoint st)) as [Hgt | Hgt].
        -- eexists; eexists. split; [reflexivity|]. simpl. auto.
        -- eexists; eexists. split; [reflexivity|]. simpl.
           unfold bounds_ok, half_up. simpl.
           repeat split; try lia.
           rewrite Hmid. clear Hmid Hbetween Hnz.
           solve_halving.
  - eexists; eexists. split; [reflexivity|]. simpl. auto.
Qed.

End CalibrationFacts.

Section CalibrationLoop.

Variable dev : Device.
Variables luminance target_luminance : Q.

Lemma calibration_passes_then_loop (n m : nat) (st st' : Search) (w w' : World) :
  calibration_passes dev luminance target_luminance n st w = Some (st', w') ->
  calibration_loop dev (n + m) luminance target_luminance st w
  = calibration_loop dev m luminance target_luminance st' w'.
Proof.
  revert st w. induction n as [|n IH]; intros st w H; simpl in *.
  - injection H as -> ->. reflexivity.
  - destruct (calibration_iteration dev luminance target_luminance st w)
      as [[[? ? ? ?|st1]|e] w1]; try discriminate.
    apply IH. exact H.
Qed.

(** More fuel does not change a finished run. *)
Lemma calibration_loop_more_fuel (n k : nat) (st : Search) (w : World)
  (x : result Flow * World) :
  calibration_loop dev n luminance target_luminance st w = Some x ->
  calibration_loop dev (n + k) luminance target_luminance st w = Some x.
Proof.
  revert st w. induction n as [|n IH]; intros st w H; simpl in *.
  - discriminate.
  - destruct (calibration_iteration dev luminance target_luminance st w)
      as [[[? ? ? ?|st1]|e] w1]; try exact H.
    apply IH. exact H.
Qed.

(** From bounds that [S n] halvings bring closer than 5, the loop breaks
    or raises within [S n] passes, having made one capture per pass. *)
Lemma calibration_loop_bounded (n : nat) :
  forall (st : Search) (w : World),
    bounds_ok st ->
    Nat.iter (S n) half_up (max_speed st - min_speed st) < 5 ->
    exists r w' passes,
      calibration_loop dev (S n) luminance target_luminance st w = Some (r, w') /\
      (1 <= passes <= S n)%nat /\
      List.length (shots w') = (List.length (shots w) + passes)%nat /\
      match r with
      | Raised _ => True
      | Ok flow => is_break flow /\ i (state_of flow) = i st + Z.of_nat passes
      end.
Proof.
  induction n as [|n IH]; intros st w Hok Hwidth.
  - destruct (calibration_iteration_spec dev luminance target_luminance st w Hok)
      as (r & w' & Hrun & Hshots & Hr).
    simpl. rewrite Hrun.
    destruct r as [[b s l st'|st']|e].
    + exists (Ok (Break b s l st')), w', 1%nat.
      repeat split; try lia.
      * rewrite Hshots, length_app. reflexivity.
      * simpl. lia.
    + exfalso. simpl in Hwidth. lia.
    + exists (Raised e), w', 1%nat.
      repeat split; try lia.
      rewrite Hshots, length_app. reflexivity.
  - destruct (calibration_iteration_spec dev luminance target_luminance st w Hok)
      as (r & w' & Hrun & Hshots & Hr).
    cbn [calibration_loop]. rewrite Hrun.
    destruct r as [[b s l st'|st']|e].
    + exists (Ok (Break b s l st')), w', 1%nat.
      repeat split; try lia.
      * rewrite Hshots, length_app. reflexivity.
      * simpl. lia.
    + destruct Hr as (Hok' & Hi & Hfar & Hhalf).
      assert (Hwidth' : Nat.iter (S n) half_up (max_speed st' - min_speed st') < 5).
      { apply Z.le_lt_trans with (2 := Hwidth).
        rewrite <- (iter_half_up_shift (S n)).
        apply iter_half_up_mono. exact Hhalf. }
      destruct (IH st' w' Hok' Hwidth') as (r2 & w2 & p & Hrun2 & Hp & Hshots2 & Hr2).
      exists r2, w2, (S p). split; [exact Hrun2|].
      split; [lia|]. split.
      * rewrite Hshots2, Hshots, length_app. simpl. lia.
      * destruct r2 as [flow|e]; [|exact I].
        destruct Hr2 as [Hb Hi2]. split; [exact Hb|]. lia.
    + exists (Raised e), w', 1%nat.
      repeat split; try lia.
      rewrite Hshots, length_app. reflexivity.
Qed.

End CalibrationLoop.

(** From the state [shoot_picture] starts the search in, 20 halvings
    bring the bounds closer than 5. *)
Lemma calibration_loop_from_start (dev : Device)
  (luminance target_luminance : Q) (w : World) (extra : nat) :
  exists r w' passes,
    calibration_loop dev (20 + extra) luminance target_luminance search_start w
    = Some (r, w') /\
    (1 <= passes <= 20)%nat /\
    List.length (shots w') = (List.length (shots w) + passes)%nat /\
    match r with
    | Raised _ => True
    | Ok flow => is_break flow /\ i (state_of flow) = Z.of_nat passes
    end.
Proof.
  assert (Hok : bounds_ok search_start).
  { unfold bounds_ok, search_start, MIN_SHUTTER_SPEED, MAX_SHUTTER_SPEED.
    simpl. lia. }
  assert (Hwidth : Nat.iter 20 half_up
                     (max_speed search_start - min_speed search_start) < 5)
    by (vm_compute; reflexivity).
  destruct (calibration_loop_bounded dev luminance target_luminance 19
              search_start w Hok Hwidth)
    as (r & w' & passes & Hrun & Hp & Hshots & Hr).
  exists r, w', passes.
  split; [apply calibration_loop_more_fuel; exact Hrun|].
  split; [exact Hp|]. split; [exact Hshots|].
  destruct r as [flow|e]; [|exact I].
  destruct Hr as [Hb Hi]. split; [exact Hb|]. simpl in Hi. lia.
Qed.

(** C2: whatever the device answers, the calibration search started by
    [shoot_picture] over [30000, 3000000] ends (at a [break] or with an
    exception of the device) after at least 1 and at most 20 passes of
    the loop and as many captures; 20 units of fuel are enough and more
    fuel gives the same run. *)
Theorem calibration_search_at_most_20 (dev : Device)
  (luminance target_luminance : Q) (w : World) (extra : nat) :
  exists r w' passes,
    calibration_loop dev (20 + extra) luminance target_luminance search_start w
    = Some (r, w') /\
    calibration_loop dev 20 luminance target_luminance search_start w
    = Some (r, w') /\
    (1 <= passes <= 20)%nat /\
    List.length (shots w') = (List.length (shots w) + passes)%nat /\
    match r with
    | Raised _ => True
    | Ok flow => is_break flow /\ i (state_of flow) = Z.of_nat passes
    end.
Proof.
  destruct (calibration_loop_from_start dev luminance target_luminance w 0)
    as (r & w' & passes & Hrun & Hrest).
  exists r, w', passes. split; [|split; [exact Hrun | exact Hrest]].
  apply (calibration_loop_more_fuel dev luminance target_luminance 20 extra).
  exact Hrun.
Qed.

(** With 20 units of fuel or more [shoot_picture] itself returns, in
    either mode, after at most 21 captures. *)
Lemma shoot_picture_terminates (dev : Device) (self : Camera) (w : World)
  (extra : nat) :
  exists r w',
    shoot_picture dev (20 + extra) self w = Some (r, w') /\
    (1 <= List.length (shots w') - List.length (shots w) <= 21)%nat.
Proof.
  unfold shoot_picture, bind, _shoot_picture, open_temp_photo.
  destruct (dev (List.length (shots w)) None) as [photo|].
  - cbn [temp_photo record_shot].
    set (w1 := record_shot None (Some photo) w).
    assert (Hw1 : List.length (shots w1) = (List.length (shots w) + 1)%nat)
      by (unfold w1; simpl; apply length_app).
    destruct (Qle_bool MINIMUM_DAYLIGHT_LUMINANCE (LUMINANCE_FROM_PICTURE photo)).
    + eexists; eexists. split; [reflexivity|]. lia.
    + destruct (negb (self_calibrate self)).
      * unfold SHUTTER_SPEED_FROM_PICTURE, raise.
        destruct (SHUTTER_SPEED_FROM_LUMINANCE (LUMINANCE_FROM_PICTURE photo)
                    (LUM_SPEED_PARAM_A w1) (LUM_SPEED_PARAM_B w1)) as [[speed|]|e].
        -- destruct (dev (List.length (shots w1))
                       (if Z.eqb speed 0 then None else Some speed));
             eexists; eexists; (split; [reflexivity|]); simpl;
             rewrite !length_app; simpl; lia.
        -- eexists; eexists. split; [reflexivity|]. lia.
        -- eexists; eexists. split; [reflexivity|]. lia.
      * destruct (calibration_loop_from_start dev (LUMINANCE_FROM_PICTURE photo)
                    (TARGET_LUMINANCE (LUMINANCE_FROM_PICTURE photo)) w1 extra)
          as (r & w' & passes & Hrun & Hp & Hshots & _).
        change {| min_speed := MIN_SHUTTER_SPEED;
                  max_speed := MAX_SHUTTER_SPEED; i := 0 |} with search_start.
        rewrite Hrun.
        destruct r as [flow|e]; eexists; eexists; (split; [reflexivity|]); lia.
  - eexists; eexists. split; [reflexivity|]. simpl.
    rewrite length_app. simpl. lia.
Qed.

(** ** Convergence guard *)

(** Every state the search passes through has its bounds in order. *)
Lemma calibration_passes_bounds_ok (dev : Device) (luminance target_luminance : Q)
  (n : nat) :
  forall (st st' : Search) (w w' : World),
    bounds_ok st ->
    calibration_passes dev luminance target_luminance n st w = Some (st', w') ->
    bounds_ok st'.
Proof.
  induction n as [|n IH]; intros st st' w w' Hok H; simpl in H.
  - injection H as <- _. exact Hok.
  - destruct (calibration_iteration_spec dev luminance target_luminance st w Hok)
      as (r & w1 & Hrun & _ & Hr).
    rewrite Hrun in H.
    destruct r as [[? ? ? ?|st1]|e]; try discriminate.
    destruct Hr as (Hok1 & _). exact (IH st1 st' w1 w' Hok1 H).
Qed.

Lemma search_start_bounds_ok : bounds_ok search_start.
Proof.
  unfold bounds_ok, search_start, MIN_SHUTTER_SPEED, MAX_SHUTTER_SPEED.
  simpl. lia.
Qed.

(** A pass that ends with its bounds closer than 5 ends at a [break]. *)
Lemma calibration_iteration_stops (dev : Device)
  (luminance target_luminance : Q) (st : Search) (w w' : World) (flow : Flow) :
  bounds_ok st ->
  calibration_iteration dev luminance target_luminance st w = (Ok flow, w') ->
  min_speed (state_of flow) + 5 > max_speed (state_of flow) ->
  (exists successful new_luminance,
     flow = Break successful (midpoint st) new_luminance (state_of flow)) /\
  shots w' = shots w ++ [Some (midpoint st)].
Proof.
  intros Hok Hpass Hconverged.
  destruct (calibration_iteration_spec dev luminance target_luminance st w Hok)
    as (r & w1 & Hrun & Hshots & Hr).
  rewrite Hpass in Hrun. injection Hrun as <- <-.
  split; [|exact Hshots].
  destruct flow as [b s l st'|st'].
  - destruct Hr as [-> _]. exists b, l. reflexivity.
  - exfalso. simpl in Hconverged. destruct Hr as (_ & _ & Hfar & _). lia.
Qed.

(** C3, as the code has it: the guard is strict.  In every state the
    search reaches, whenever a pass of the loop ends with
    [min_speed + 5 > max_speed], the loop stops there: it returns after
    that pass, keeps the speed of that last capture (the midpoint), and
    has made exactly one capture since the pass began, whether or not the
    luminance was within the margin. *)
Theorem calibration_stops_when_converged (dev : Device)
  (luminance target_luminance : Q) (n fuel : nat)
  (w0 w w' : World) (st : Search) (flow : Flow)
  (Hreach : calibration_passes dev luminance target_luminance n search_start w0
            = Some (st, w))
  (Hpass : calibration_iteration dev luminance target_luminance st w = (Ok flow, w'))
  (Hconverged : min_speed (state_of flow) + 5 > max_speed (state_of flow)) :
  exists successful new_luminance,
    flow = Break successful (midpoint st) new_luminance (state_of flow) /\
    calibration_loop dev (S fuel) luminance target_luminance st w
    = Some (Ok flow, w') /\
    calibration_loop dev (n + S fuel) luminance target_luminance search_start w0
    = Some (Ok flow, w') /\
    shots w' = shots w ++ [Some (midpoint st)].
Proof.
  assert (Hok : bounds_ok st).
  { apply (calibration_passes_bounds_ok dev luminance target_luminance n
             search_start st w0 w search_start_bounds_ok Hreach). }
  destruct (calibration_iteration_stops dev luminance target_luminance
              st w w' flow Hok Hpass Hconverged)
    as [(b & l & Hflow) Hshots].
  assert (Hloop : calibration_loop dev (S fuel) luminance target_luminance st w
                  = Some (Ok flow, w')).
  { simpl. rewrite Hpass, Hflow. reflexivity. }
  exists b, l. split; [exact Hflow|]. split; [exact Hloop|].
  split; [|exact Hshots].
  rewrite (calibration_passes_then_loop dev luminance target_luminance
             n (S fuel) search_start st w0 w Hreach).
  exact Hloop.
Qed.

Lemma calibration_stops_when_converged_witness :
  exists successful new_luminance,
    Break false 30002 255 {| min_speed := 30000; max_speed := 30002; i := 20 |}
    = Break successful
        (midpoint {| min_speed := 30000; max_speed := 30005; i := 19 |})
        new_luminance
        (state_of (Break false 30002 255
                     {| min_speed := 30000; max_speed := 30002; i := 20 |})) /\
    calibration_loop (two_level_device 10 255) 1 10 40
      {| min_speed := 30000; max_speed := 30005; i := 19 |}
      world_after_19_passes
    = Some (Ok (Break false 30002 255
                  {| min_speed := 30000; max_speed := 30002; i := 20 |}),
            record_shot (Some 30002) (Some {| photo_luminance := 255 |})
              world_after_19_passes) /\
    calibration_loop (two_level_device 10 255) (19 + 1) 10 40
      search_start (after_first_shot 10)
    = Some (Ok (Break false 30002 255
                  {| min_speed := 30000; max_speed := 30002; i := 20 |}),
            record_shot (Some 30002) (Some {| photo_luminance := 255 |})
              world_after_19_passes) /\
    shots (record_shot (Some 30002) (Some {| photo_luminance := 255 |})
             world_after_19_passes)
    = shots world_after_19_passes
      ++ [Some (midpoint {| min_speed := 30000; max_speed := 30005; i := 19 |})].
Proof.
  apply (calibration_stops_when_converged (two_level_device 10 255) 10 40 19 0
           (after_first_shot 10)).
  - vm_compute. reflexivity.
  - vm_compute. reflexivity.
  - simpl. lia.
Defined.

(** C3, as stated, fails when the bounds end a pass exactly 5 apart.
    With a first frame of luminance 10 (target 40) and every later frame
    too bright, 19 passes leave [min_speed = 30000], [max_speed = 30005]:
    [min_speed + 5 >= max_speed] holds, yet the loop goes round again and
    makes a 20th capture, at 30002. *)
Lemma calibration_goes_on_at_distance_5 :
  let dev := two_level_device 10 255 in
  let w1 := after_first_shot 10 in
  let st19 := {| min_speed := 30000; max_speed := 30005; i := 19 |} in
  exists w19 w20,
    calibration_passes dev 10 (TARGET_LUMINANCE 10) 19 search_start w1
    = Some (st19, w19) /\
    min_speed st19 + 5 >= max_speed st19 /\
    calibration_iteration dev 10 (TARGET_LUMINANCE 10) st19 w19
    = (Ok (Break false 30002 255
             {| min_speed := 30000; max_speed := 30002; i := 20 |}), w20) /\
    shots w20 = shots w19 ++ [Some 30002] /\
    List.length (shots w20) = 21%nat.
Proof.
  eexists; eexists. split; [vm_compute; reflexivity|].
  split; [simpl; lia|].
  split; [vm_compute; reflexivity|].
  split; reflexivity.
Qed.

(** The same run through [shoot_picture]: 21 captures, the last two at
    30005 and 30002; and 19 units of fuel do not reach the [break]. *)
Example shoot_picture_calibration_run :
  exists w',
    shoot_picture (two_level_device 10 255) 20 (plain_camera true)
      (initial_world None None) = Some (Ok tt, w') /\
    shots w' =
      [None; Some 1515000; Some 772500; Some 401250; Some 215625;
       Some 122812; Some 76406; Some 53203; Some 41601; Some 35800;
       Some 32900; Some 31450; Some 30725; Some 30362; Some 30181;
       Some 30090; Some 30045; Some 30022; Some 30011; Some 30005;
       Some 30002] /\
    shoot_picture (two_level_device 10 255) 19 (plain_camera true)
      (initial_world None None) = None.
Proof.
  eexists. split; [vm_compute; reflexivity|].
  split; vm_compute; reflexivity.
Qed.

(** ** shoot_picture *)

Section ShootPicture.

Variable dev : Device.

(** A first frame at or above the daylight threshold is accepted: one
    capture, nothing more. *)
Lemma shoot_picture_daylight (fuel : nat) (self : Camera) (w : World) (photo : Photo) :
  dev (List.length (shots w)) None = Some photo ->
  (60 <= photo_luminance photo)%Q ->
  shoot_picture dev fuel self w = Some (Ok tt, record_shot None (Some photo) w).
Proof.
  intros Hfirst Hlum.
  unfold shoot_picture, bind, _shoot_picture, open_temp_photo.
  rewrite Hfirst. simpl.
  unfold LUMINANCE_FROM_PICTURE, MINIMUM_DAYLIGHT_LUMINANCE.
  case_Qle 60%Q (photo_luminance photo); [reflexivity | lra].
Qed.

Lemma default_speed_positive (lum : Q) :
  (0 < lum)%Q -> 60000 <= py_int (600000 / lum + 60000).
Proof.
  intro Hpos.
  rewrite (py_int_floor _ (default_speed_nonneg lum Hpos)).
  assert (H : (0 <= 600000 / lum)%Q) by (apply Qle_shift_div_l; lra).
  assert (Hf : Qfloor (inject_Z 60000) <= Qfloor (600000 / lum + 60000)).
  { apply Qfloor_resp_le. unfold inject_Z. lra. }
  rewrite Qfloor_Z in Hf. exact Hf.
Qed.

(** A first frame with luminance strictly between 0 and 60, outside
    calibration and with the default parameters: one more capture, at
    the speed of the formula, and its outcome is the outcome of the
    call. *)
Lemma shoot_picture_low_light (fuel : nat) (self : Camera) (w : World) (photo : Photo) :
  dev (List.length (shots w)) None = Some photo ->
  (0 < photo_luminance photo)%Q ->
  (photo_luminance photo < 60)%Q ->
  self_calibrate self = false ->
  LUM_SPEED_PARAM_A w = LUM_SPEED_PARAM_A_default ->
  LUM_SPEED_PARAM_B w = LUM_SPEED_PARAM_B_default ->
  let speed := py_int (600000 / photo_luminance photo + 60000) in
  exists r w',
    shoot_picture dev fuel self w = Some (r, w') /\
    shots w' = shots w ++ [None; Some speed] /\
    (r = Ok tt \/ r = Raised PiCameraError).
Proof.
  intros Hfirst Hpos Hlt Hmode HA HB speed.
  pose proof (default_speed_positive _ Hpos) as Hspeed. fold speed in Hspeed.
  unfold shoot_picture, bind, _shoot_picture, open_temp_photo.
  rewrite Hfirst. simpl.
  unfold LUMINANCE_FROM_PICTURE, MINIMUM_DAYLIGHT_LUMINANCE.
  case_Qle 60%Q (photo_luminance photo); [lra|].
  rewrite Hmode. simpl.
  unfold SHUTTER_SPEED_FROM_PICTURE, LUMINANCE_FROM_PICTURE. simpl.
  rewrite HA, HB. unfold LUM_SPEED_PARAM_A_default, LUM_SPEED_PARAM_B_default.
  rewrite (SHUTTER_SPEED_FROM_LUMINANCE_low _ 600000 60000 Hpos Hlt).
  fold speed.
  assert (Hnz : Z.eqb speed 0 = false) by (apply Z.eqb_neq; lia).
  rewrite Hnz.
  destruct (dev _ (Some speed)) as [photo2|];
    eexists; eexists; (split; [reflexivity|]); simpl;
    rewrite <- app_assoc; simpl; auto.
Qed.

(** C10: when the first frame has luminance exactly 0 and calibration is
    off, [shoot_picture] ends with [ZeroDivisionError], raised by the
    division in the shutter-speed formula; nothing in [shoot_picture]
    catches it, and the only capture made is the first one. *)
Theorem shoot_picture_black_frame_raises (fuel : nat) (self : Camera)
  (w : World) (photo : Photo)
  (Hfirst : dev (List.length (shots w)) None = Some photo)
  (Hblack : (photo_luminance photo == 0)%Q)
  (Hmode : self_calibrate self = false) :
  SHUTTER_SPEED_FROM_LUMINANCE (photo_luminance photo)
    (LUM_SPEED_PARAM_A w) (LUM_SPEED_PARAM_B w) = Raised ZeroDivisionError /\
  shoot_picture dev fuel self w
  = Some (Raised ZeroDivisionError, record_shot None (Some photo) w) /\
  shots (record_shot None (Some photo) w) = shots w ++ [None].
Proof.
  split; [apply SHUTTER_SPEED_FROM_LUMINANCE_zero; exact Hblack|].
  split; [|reflexivity].
  unfold shoot_picture, bind, _shoot_picture, open_temp_photo.
  rewrite Hfirst. simpl.
  unfold LUMINANCE_FROM_PICTURE, MINIMUM_DAYLIGHT_LUMINANCE.
  case_Qle 60%Q (photo_luminance photo); [lra|].
  rewrite Hmode. simpl.
  unfold SHUTTER_SPEED_FROM_PICTURE, LUMINANCE_FROM_PICTURE. simpl.
  rewrite (SHUTTER_SPEED_FROM_LUMINANCE_zero _ _ _ Hblack). reflexivity.
Qed.

End ShootPicture.

Lemma shoot_picture_black_frame_raises_witness :
  SHUTTER_SPEED_FROM_LUMINANCE 0 600000 60000 = Raised ZeroDivisionError /\
  shoot_picture (two_level_device 0 0) 0 (plain_camera false) (initial_world None None)
  = Some (Raised ZeroDivisionError,
          record_shot None (Some {| photo_luminance := 0 |}) (initial_world None None)) /\
  shots (record_shot None (Some {| photo_luminance := 0 |}) (initial_world None None))
  = shots (initial_world None None) ++ [None].
Proof.
  apply (shoot_picture_black_frame_raises (two_level_device 0 0) 0
           (plain_camera false) (initial_world None None) {| photo_luminance := 0 |}).
  - reflexivity.
  - reflexivity.
  - reflexivity.
Defined.

(** C6 at an all-black first frame, calibration off: the claim promises
    a second capture, the code makes one capture and raises. *)
Theorem shoot_picture_black_frame_one_capture :
  exists w',
    shoot_picture (two_level_device 0 100) 0 (plain_camera false)
      (initial_world None None) = Some (Raised ZeroDivisionError, w') /\
    shots w' = [None] /\
    List.length (shots w') <> 2%nat.
Proof.
  eexists. split; [vm_compute; reflexivity|].
  split; [reflexivity | discriminate].
Qed.

(** The two cases of C6 that the code does honour, on samples: daylight
    at once, and a dim first frame reshot once at the corrected speed and
    accepted although the second frame is still dark. *)
Example shoot_picture_bright_sample :
  exists w',
    shoot_picture (two_level_device 60 0) 0 (plain_camera false)
      (initial_world None None) = Some (Ok tt, w') /\
    shots w' = [None].
Proof. eexists. split; [vm_compute; reflexivity | reflexivity]. Qed.

Example shoot_picture_dim_sample :
  exists w',
    shoot_picture (two_level_device 30 5) 0 (plain_camera false)
      (initial_world None None) = Some (Ok tt, w') /\
    shots w' = [None; Some 80000] /\
    temp_photo w' = Some {| photo_luminance := 5 |}.
Proof.
  eexists. split; [vm_compute; reflexivity|]. split; reflexivity.
Qed.

(** ** Camera.__init__ and the calibration override *)

(** [__init__] leaves the world, and with it the two module globals, as
    it found them, whatever the files hold. *)
Lemma Camera___init___keeps_world (configuration : Configuration) (w : World) :
  snd (Camera___init__ configuration w) = w.
Proof.
  unfold Camera___init__.
  destruct (open_if_exists (calibration_flag_file w)); [|reflexivity].
  destruct (open_if_exists (calibrated_parameters_file w)); reflexivity.
Qed.

(** C1 at an override file holding "500000 50000": [__init__] reads the
    two values (as strings, into its local frame), the module globals
    stay at 600000 and 60000, and a first frame of luminance 30 is
    reshot at [600000/30 + 60000 = 80000], not at the
    [500000/30 + 50000 = 66666] of the overridden constants. *)
Theorem calibration_override_not_consumed :
  let w0 := initial_world None (Some "500000 50000"%string) in
  exists self w2,
    init_local_parameters w0 = Some ("500000"%string, "50000"%string) /\
    Camera___init__ no_configuration w0 = (Ok self, w0) /\
    LUM_SPEED_PARAM_A w0 = 600000%Q /\
    LUM_SPEED_PARAM_B w0 = 60000%Q /\
    self_calibrate self = false /\
    shoot_picture (two_level_device 30 100) 0 self w0 = Some (Ok tt, w2) /\
    shots w2 = [None; Some 80000] /\
    SHUTTER_SPEED_FROM_LUMINANCE 30 500000 50000 = Ok (Some 66666).
Proof.
  eexists; eexists.
  split; [vm_compute; reflexivity|].
  split; [reflexivity|].
  split; [reflexivity|].
  split; [reflexivity|].
  split; [reflexivity|].
  split; [vm_compute; reflexivity|].
  split; vm_compute; reflexivity.
Qed.

(** ** Strings *)

Lemma split_on_nonempty (sep : ascii) (s : string) : split_on sep s <> [].
Proof.
  destruct s as [|c rest]; simpl; [discriminate|].
  destruct (Ascii.eqb c sep); [discriminate|].
  destruct (split_on sep rest); discriminate.
Qed.

(** A string that splits into one piece is that piece. *)
Lemma split_on_one (sep : ascii) (s piece : string) :
  split_on sep s = [piece] -> s = piece.
Proof.
  revert piece. induction s as [|c rest IH]; intros piece H; simpl in H.
  - injection H as <-. reflexivity.
  - destruct (Ascii.eqb c sep).
    + injection H as _ H. exfalso. exact (split_on_nonempty sep rest H).
    + destruct (split_on sep rest) as [|p ps] eqn:E; [injection H as <-|].
      * exfalso. exact (split_on_nonempty sep rest E).
      * injection H as <- ->. rewrite (IH p eq_refl). reflexivity.
Qed.

(** A string that splits into two pieces is the two pieces around one
    separator. *)
Lemma split_on_two (sep : ascii) (s v h : string) :
  split_on sep s = [v; h] -> s = (v ++ String sep h)%string.
Proof.
  revert v. induction s as [|c rest IH]; intros v H; simpl in H.
  - discriminate.
  - destruct (Ascii.eqb_spec c sep) as [-> | Hne].
    + injection H as <- H. rewrite (split_on_one sep rest h H). reflexivity.
    + destruct (split_on sep rest) as [|p ps] eqn:E; [discriminate|].
      injection H as <- ->. rewrite (IH p eq_refl). reflexivity.
Qed.

(** ** Overlay layout *)

Lemma list_max_is_max (l : list N) : is_max_or_zero (list_max l) l.
Proof.
  induction l as [|h t IH]; [left; split; reflexivity|].
  right. unfold list_max in *. simpl.
  destruct IH as [[-> Hm] | [Hin Hall]].
  - simpl. rewrite N.max_0_r. split; [left; reflexivity|].
    constructor; [lia | constructor].
  - destruct (N.max_spec h (fold_right N.max 0%N t)) as [[Hlt ->] | [Hle ->]].
    + split; [right; exact Hin|].
      constructor; [lia | exact Hall].
    + split; [left; reflexivity|].
      constructor; [lia|].
      apply Forall_impl with (2 := Hall). intros a Ha. lia.
Qed.

Lemma position_parts_Ok (position v h : string) :
  position_parts position = Ok (v, h) ->
  (v = "top"%string \/ v = "bottom"%string) /\
  (h = "left"%string \/ h = "center"%string \/ h = "right"%string) /\
  In (lower position) position_labels.
Proof.
  unfold position_parts.
  destruct (split_on "_"%char (lower position)) as [|v' [|h' [|? ?]]] eqn:E;
    try discriminate.
  destruct (String.eqb_spec v' "top"); destruct (String.eqb_spec v' "bottom");
    destruct (String.eqb_spec h' "left"); destruct (String.eqb_spec h' "center");
    destruct (String.eqb_spec h' "right"); simpl; try discriminate;
    intro H; injection H as <- <-; subst;
    apply split_on_two in E; rewrite E; unfold position_labels; simpl; tauto.
Qed.

(** A label that does not lower-case to one of the six is rejected. *)
Lemma position_parts_malformed (position : string) :
  ~ In (lower position) position_labels ->
  exists e, position_parts position = Raised e.
Proof.
  intro H. destruct (position_parts position) as [[v h]|e] eqn:E.
  - exfalso. apply H. exact (proj2 (proj2 (position_parts_Ok position v h E))).
  - exists e. reflexivity.
Qed.

Lemma well_rendered_getters (self : Overlay) :
  well_rendered self ->
  get_over_the_picture self = Ok (over_the_picture_flag self) /\
  exists img,
    attr_rendered_image self = Some (Some img) /\
    get_rendered_image self = Ok (Some img) /\
    rendered_image_size self = Ok (width img, height img).
Proof.
  intros (Hd & (img & Himg) & _ & _). split.
  - unfold get_over_the_picture, over_the_picture_flag. rewrite Hd.
    destruct (slot_over_the_picture (data self)); reflexivity.
  - exists img. unfold rendered_image_size, get_rendered_image. rewrite Himg.
    simpl. auto.
Qed.

(** C7, as the code has it: for a rendered overlay, [x] is 0 for
    [left], the canvas width minus the overlay width for [right], and
    for [center] half that difference truncated toward zero by [int]
    (the floor when the overlay is not wider than the canvas); [y] is as
    claimed: [border_top] or 0 for [top], and the canvas height minus
    the overlay height, minus [border_bottom] when over the picture, for
    [bottom]. *)
Theorem compute_position_truncates (self : Overlay) (img : Image)
  (image_width image_height border_top border_bottom : Z)
  (Hdefaults : has_defaults self = true)
  (Himg : attr_rendered_image self = Some (Some img)) :
  exists x y,
    compute_position self image_width image_height border_top border_bottom
    = Ok (x, y) /\
    (horizontal_position self = "left"%string -> x = 0) /\
    (horizontal_position self = "right"%string ->
     x = image_width - Z.of_N (width img)) /\
    (horizontal_position self = "center"%string ->
     x = Z.quot (image_width - Z.of_N (width img)) 2 /\
     (Z.of_N (width img) <= image_width ->
      x = (image_width - Z.of_N (width img)) / 2)) /\
    (vertical_position self = "top"%string ->
     y = if over_the_picture_flag self then border_top else 0) /\
    (vertical_position self = "bottom"%string ->
     y = if over_the_picture_flag self
         then image_height - Z.of_N (height img) - border_bottom
         else image_height - Z.of_N (height img)).
Proof.
  assert (Hover : get_over_the_picture self = Ok (over_the_picture_flag self)).
  { unfold get_over_the_picture, over_the_picture_flag. rewrite Hdefaults.
    destruct (slot_over_the_picture (data self)); reflexivity. }
  assert (Hsize : rendered_image_size self = Ok (width img, height img)).
  { unfold rendered_image_size, get_rendered_image. rewrite Himg. reflexivity. }
  unfold compute_position. rewrite Hover, Hsize. simpl.
  rewrite py_int_half.
  destruct (String.eqb_spec (horizontal_position self) "left") as [Hl | Hl];
    [|destruct (String.eqb_spec (horizontal_position self) "right") as [Hr | Hr];
      [|destruct (String.eqb_spec (horizontal_position self) "center") as [Hc | Hc]]];
    (destruct (String.eqb_spec (vertical_position self) "top") as [Ht | Ht];
     [|destruct (String.eqb_spec (vertical_position self) "bottom") as [Hb | Hb]]);
    simpl; eexists; eexists; (split; [reflexivity|]);
    repeat split; intros; try congruence;
    try (rewrite Z.quot_div_nonneg by lia; reflexivity).
Qed.

Lemma compute_position_truncates_witness :
  exists x y,
    compute_position (sample_overlay "bottom" "center" true (blank 12 20)) 64 68 20 0
    = Ok (x, y) /\ x = 26 /\ y = 48.
Proof.
  destruct (compute_position_truncates
              (sample_overlay "bottom" "center" true (blank 12 20)) (blank 12 20)
              64 68 20 0 eq_refl eq_refl)
    as (x & y & Hrun & _ & _ & Hcenter & _ & Hbottom).
  exists x, y. split; [exact Hrun|]. split.
  - destruct (Hcenter eq_refl) as [-> _]. reflexivity.
  - rewrite (Hbottom eq_refl). reflexivity.
Defined.

(** C7, as stated, fails for a centred overlay wider than the canvas by
    an odd number of pixels: on a canvas 64 wide an overlay 67 wide is
    placed at [x = -1], while the floor of [(64 - 67)/2] is [-2]. *)
Lemma compute_position_center_not_floor :
  horizontal_position (sample_overlay "top" "center" false (blank 67 20))
  = "center"%string /\
  compute_position (sample_overlay "top" "center" false (blank 67 20)) 64 48 0 0
  = Ok (-1, 0) /\
  (64 - Z.of_N (width (blank 67 20))) / 2 = -2 /\
  compute_position (sample_overlay "top" "center" false (blank 67 20)) 64 48 0 0
  <> Ok ((64 - Z.of_N (width (blank 67 20))) / 2, 0).
Proof.
  repeat split. vm_compute. discriminate.
Qed.

(** ** Compositor *)

Lemma compute_position_defined (self : Overlay)
  (image_width image_height border_top border_bottom : Z) :
  well_rendered self ->
  exists xy,
    compute_position self image_width image_height border_top border_bottom = Ok xy.
Proof.
  intro Hw. destruct (well_rendered_getters self Hw) as (Hover & img & _ & _ & Hsize).
  unfold compute_position. rewrite Hover, Hsize. simpl.
  destruct (String.eqb (horizontal_position self) "left");
    destruct (String.eqb (horizontal_position self) "right");
    destruct (String.eqb (horizontal_position self) "center");
    destruct (String.eqb (vertical_position self) "top");
    destruct (String.eqb (vertical_position self) "bottom");
    simpl; eexists; reflexivity.
Qed.

Section CompositorFacts.

Variable render_text : SlotData -> string -> string -> N -> N -> option Image.
Variable render_image : string -> SlotData -> option Image.

Lemma Overlay___init___positions (position : string) (d : SlotData)
  (pw ph : N) (df tf : string) (o : Overlay) :
  Overlay___init__ render_text render_image position d pw ph df tf = Ok o ->
  position_parts position = Ok (vertical_position o, horizontal_position o).
Proof.
  unfold Overlay___init__.
  destruct (position_parts position) as [[v h]|e]; [|discriminate].
  destruct (slot_type d) as [t|].
  - destruct (String.eqb t ""); [intro H; injection H as <-; reflexivity|].
    destruct (String.eqb t "text"); [intro H; injection H as <-; reflexivity|].
    destruct (String.eqb t "image"); [|discriminate].
    unfold create_image_overlay. destruct (slot_path d); simpl; [|discriminate].
    intro H; injection H as <-; reflexivity.
  - intro H; injection H as <-; reflexivity.
Qed.

(** Whatever the first loop keeps is a fully built overlay with an
    image and a valid position. *)
Lemma render_slot_well_rendered (self : Camera) (photo : Image)
  (slot : string * SlotData) (o : Overlay) :
  render_slot render_text render_image self photo slot = Some o ->
  well_rendered o.
Proof.
  unfold render_slot.
  destruct (Overlay___init__ render_text render_image (fst slot) (snd slot)
              (width photo) (height photo) (self_date_format self)
              (self_time_format self)) as [o'|e] eqn:Einit; simpl; [|discriminate].
  destruct (get_rendered_image o') as [[img|]|e] eqn:Eget; simpl; try discriminate.
  intro H. injection H as <-.
  pose proof (Overlay___init___positions _ _ _ _ _ _ _ Einit) as Hpos.
  destruct (position_parts_Ok _ _ _ Hpos) as (Hv & Hh & _).
  unfold get_rendered_image in Eget.
  assert (Hattr : attr_rendered_image o' = Some (Some img) /\ has_defaults o' = true).
  { revert Einit Eget. unfold Overlay___init__.
    destruct (position_parts (fst slot)) as [[v h]|e]; [|discriminate].
    destruct (slot_type (snd slot)) as [t|].
    - destruct (String.eqb t "");
        [intro H; injection H as <-; simpl; discriminate|].
      destruct (String.eqb t "text");
        [intro H; injection H as <-; simpl; intro H2; injection H2 as ->; auto|].
      destruct (String.eqb t "image"); [|discriminate].
      unfold create_image_overlay. destruct (slot_path (snd slot)); simpl; [|discriminate].
      intro H; injection H as <-; simpl; intro H2; injection H2 as ->; auto.
    - intro H; injection H as <-; simpl; discriminate. }
  destruct Hattr as [Hattr Hd].
  repeat split; try assumption. exists img. exact Hattr.
Qed.


Lemma create_overlays_well_rendered (self : Camera) (photo : Image)
  (slots : list (string * SlotData)) :
  forall acc, Forall well_rendered acc ->
  Forall well_rendered (create_overlays render_text render_image self photo slots acc).
Proof.
  induction slots as [|slot rest IH]; intros acc Hacc; simpl; [exact Hacc|].
  destruct (render_slot render_text render_image self photo slot) as [o|] eqn:E.
  - apply IH. apply Forall_app. split; [exact Hacc|].
    constructor; [|constructor].
    exact (render_slot_well_rendered self photo slot o E).
  - apply IH. exact Hacc.
Qed.


End CompositorFacts.

(** The second loop computes the two maxima. *)
Lemma compute_borders_spec (rendered : list Overlay) :
  Forall well_rendered rendered ->
  forall border_top border_bottom : N,
    compute_borders rendered border_top border_bottom
    = Ok (N.max border_top (list_max (border_heights "top" rendered)),
          N.max border_bottom (list_max (border_heights "bottom" rendered))).
Proof.
  induction 1 as [|o rest Ho Hrest IH]; intros bt bb.
  - simpl. unfold list_max. simpl. rewrite !N.max_0_r. reflexivity.
  - destruct (well_rendered_getters o Ho) as (Hover & img & Hattr & _ & Hsize).
    destruct Ho as (_ & _ & Hv & _).
    cbn [compute_borders border_heights]. rewrite Hover, Hattr. simpl rbind.
    destruct (over_the_picture_flag o); simpl negb.
    + rewrite !andb_false_r. apply IH.
    + rewrite !andb_true_r. destruct Hv as [-> | ->]; simpl String.eqb; cbv iota.
      * rewrite Hsize. simpl rbind. rewrite IH. simpl snd.
        unfold list_max. simpl fold_right. rewrite N.max_assoc. reflexivity.
      * rewrite Hsize. simpl rbind. rewrite IH. simpl snd.
        unfold list_max. simpl fold_right. rewrite N.max_assoc. reflexivity.
Qed.

(** The third loop pastes every rendered overlay once and leaves the
    size of the canvas alone. *)
Lemma paste_overlays_spec (rendered : list Overlay) (border_top border_bottom : N) :
  Forall well_rendered rendered ->
  forall image : Canvas,
  exists pasted,
    paste_overlays rendered image border_top border_bottom
    = Ok {| canvas_width := canvas_width image;
            canvas_height := canvas_height image;
            layers := layers image ++ pasted |} /\
    List.length pasted = List.length rendered.
Proof.
  induction 1 as [|o rest Ho Hrest IH]; intro image.
  - exists []. simpl. rewrite app_nil_r. destruct image; auto.
  - destruct (well_rendered_getters o Ho) as (_ & img & _ & Hget & _).
    destruct (compute_position_defined o (Z.of_N (canvas_width image))
                (Z.of_N (canvas_height image)) (Z.of_N border_top)
                (Z.of_N border_bottom) Ho) as [xy Hxy].
    cbn [paste_overlays]. rewrite Hget. simpl rbind. rewrite Hxy. simpl rbind.
    destruct (IH (paste img xy image)) as (pasted & Hrun & Hlen).
    exists ((img, xy) :: pasted). rewrite Hrun. simpl.
    rewrite <- app_assoc. simpl. rewrite Hlen. auto.
Qed.

Section ProcessPicture.

Variable render_text : SlotData -> string -> string -> N -> N -> option Image.
Variable render_image : string -> SlotData -> option Image.

(** What [process_picture] returns, from the overlays its first loop
    kept. *)
Lemma process_picture_result (self : Camera) (photo : Image) :
  let rendered :=
    create_overlays render_text render_image self photo (overlays self) [] in
  let border_top := list_max (border_heights "top" rendered) in
  let border_bottom := list_max (border_heights "bottom" rendered) in
  exists pasted,
    process_picture render_text render_image self (Some photo)
    = Ok (Some {| canvas_width := width photo;
                  canvas_height := (height photo + border_top + border_bottom)%N;
                  layers := (photo, (0, Z.of_N border_top)) :: pasted |}) /\
    List.length pasted = List.length rendered.
Proof.
  intros rendered border_top border_bottom.
  assert (Hall : Forall well_rendered rendered)
    by (apply create_overlays_well_rendered; constructor).
  unfold process_picture. fold rendered.
  rewrite (compute_borders_spec rendered Hall). simpl rbind.
  rewrite !N.max_0_l. cbn [fst snd]. fold border_top border_bottom.
  destruct (paste_overlays_spec rendered border_top border_bottom Hall
              (paste photo (0, Z.of_N border_top)
                 {| canvas_width := width photo;
                    canvas_height := (height photo + border_top + border_bottom)%N;
                    layers := [] |}))
    as (pasted & Hrun & Hlen).
  exists pasted. rewrite Hrun. simpl. auto.
Qed.

(** C8: the canvas is as wide as the photo and as high as the photo
    plus the two borders, each border being the greatest rendered height
    among the overlays anchored to that edge that are not over the
    picture (0 without any); so the canvas is at least as high as the
    photo; and the photo is the first thing pasted, at
    [(0, border_top)]. *)
Theorem process_picture_canvas (self : Camera) (photo : Image) :
  let rendered :=
    create_overlays render_text render_image self photo (overlays self) [] in
  exists canvas border_top border_bottom pasted,
    process_picture render_text render_image self (Some photo) = Ok (Some canvas) /\
    Forall well_rendered rendered /\
    is_max_or_zero border_top (border_heights "top" rendered) /\
    is_max_or_zero border_bottom (border_heights "bottom" rendered) /\
    canvas_width canvas = width photo /\
    canvas_height canvas = (height photo + border_top + border_bottom)%N /\
    (height photo <= canvas_height canvas)%N /\
    layers canvas = (photo, (0, Z.of_N border_top)) :: pasted.
Proof.
  intro rendered.
  destruct (process_picture_result self photo) as (pasted & Hrun & _).
  fold rendered in Hrun.
  eexists; exists (list_max (border_heights "top" rendered)),
    (list_max (border_heights "bottom" rendered)), pasted.
  split; [exact Hrun|].
  split; [apply create_overlays_well_rendered; constructor|].
  split; [apply list_max_is_max|].
  split; [apply list_max_is_max|].
  simpl. repeat split. lia.
Qed.



End ProcessPicture.

(** ** Compositing on samples *)

(** The end-to-end example: a 64 by 48 photo, a text 20 high at the top
    left in the border, an image at the bottom right over the picture. *)
Example process_picture_sample :
  process_picture sample_render_text sample_render_image
    (camera_with [("top_left"%string, sample_slot "text" false);
                  ("bottom_right"%string, sample_slot "image" true)])
    (Some (blank 64 48))
  = Ok (Some {| canvas_width := 64;
                canvas_height := 68;
                layers := [(blank 64 48, (0, 20));
                           (blank 40 20, (0, 0));
                           (blank 12 10, (52, 58))] |}).
Proof. reflexivity. Qed.


(** The other ways to be dropped, on samples: a label that does not
    split in two, a missing type, an unknown type, an image slot without
    a file name. *)
Example dropped_slots_sample :
  process_picture sample_render_text sample_render_image
    (camera_with [("top"%string, sample_slot "text" false);
                  ("top_left"%string,
                   {| slot_type := None; slot_over_the_picture := None;
                      slot_text := None; slot_font_size := None;
                      slot_path := None; slot_width := None;
                      slot_height := None; slot_padding_ratio := None |});
                  ("top_right"%string, sample_slot "video" false);
                  ("bottom_left"%string,
                   {| slot_type := Some "image"%string;
                      slot_over_the_picture := None;
                      slot_text := None; slot_font_size := None;
                      slot_path := None; slot_width := None;
                      slot_height := None; slot_padding_ratio := None |})])
    (Some (blank 64 48))
  = Ok (Some {| canvas_width := 64;
                canvas_height := 48;
                layers := [(blank 64 48, (0, 0))] |}).
Proof. reflexivity. Qed.


(** * Further properties *)

(** ** Splitting and joining strings *)

Lemma append_assoc (a b c : string) : ((a ++ b) ++ c = a ++ (b ++ c))%string.
Proof. induction a as [|x a IH]; simpl; [reflexivity | rewrite IH; reflexivity]. Qed.

Lemma append_nil_r (a : string) : (a ++ "" = a)%string.
Proof. induction a as [|x a IH]; simpl; [reflexivity | rewrite IH; reflexivity]. Qed.

(** Joining the pieces of a split with the separator gives the string
    back. *)
Lemma concat_cons2 (sep x y : string) (l : list string) :
  String.concat sep (x :: y :: l) = (x ++ sep ++ String.concat sep (y :: l))%string.
Proof. reflexivity. Qed.

Lemma concat_split_on (sep : ascii) (s : string) :
  String.concat (String sep EmptyString) (split_on sep s) = s.
Proof.
  induction s as [|c rest IH]; [reflexivity|].
  simpl split_on. destruct (Ascii.eqb_spec c sep) as [-> | Hne].
  - destruct (split_on sep rest) as [|p ps] eqn:E.
    + exfalso. exact (split_on_nonempty sep rest E).
    + rewrite concat_cons2, IH. reflexivity.
  - destruct (split_on sep rest) as [|p ps] eqn:E.
    + exfalso. exact (split_on_nonempty sep rest E).
    + destruct ps as [|q ps].
      * simpl in *. rewrite IH. reflexivity.
      * rewrite concat_cons2 in *. rewrite <- IH. reflexivity.
Qed.

(** No piece of a split contains the separator. *)
Lemma split_on_no_sep (sep : ascii) (s : string) :
  Forall (fun piece => occurs sep piece = false) (split_on sep s).
Proof.
  induction s as [|c rest IH]; simpl.
  - constructor; [reflexivity | constructor].
  - destruct (Ascii.eqb_spec c sep) as [-> | Hne].
    + constructor; [reflexivity | exact IH].
    + destruct (split_on sep rest) as [|p ps]; [constructor; [|constructor]|].
      * simpl. apply Ascii.eqb_neq in Hne. rewrite Hne. reflexivity.
      * inversion IH as [|? ? Hp Hps]; subst. constructor; [|exact Hps].
        simpl. apply Ascii.eqb_neq in Hne. rewrite Hne, Hp. reflexivity.
Qed.

Lemma spaced_concat (words : list string) :
  words <> [] ->
  spaced words = (String.concat " " words ++ " ")%string.
Proof.
  induction words as [|word rest IH]; intro Hne; [contradiction|].
  destruct rest as [|word2 rest].
  - simpl. reflexivity.
  - change (spaced (word :: word2 :: rest))
      with (word ++ " " ++ spaced (word2 :: rest))%string.
    rewrite IH by discriminate.
    change (String.concat " " (word :: word2 :: rest))
      with (word ++ " " ++ String.concat " " (word2 :: rest))%string.
    rewrite !append_assoc. reflexivity.
Qed.

Lemma glued_app (l1 l2 : list string) :
  glued (l1 ++ l2) = (glued l1 ++ glued l2)%string.
Proof.
  induction l1 as [|x l1 IH]; simpl; [reflexivity|].
  rewrite IH, append_assoc. reflexivity.
Qed.

(** ** Overlay.process_text *)

Section ProcessTextFacts.

Variable getsize : string -> N.
Variable textsize : string -> N * N.
Variable max_line_length : N.

Lemma fold_wrap_line_fitting (lines : list string) :
  Forall (fun line => (getsize line <= max_line_length)%N) lines ->
  forall acc, fold_left (wrap_line getsize max_line_length) lines acc = acc ++ lines.
Proof.
  induction 1 as [|line rest Hfit Hrest IH]; intro acc; simpl.
  - rewrite app_nil_r. reflexivity.
  - unfold wrap_line at 2. apply N.leb_le in Hfit. rewrite Hfit.
    rewrite IH, <- app_assoc. reflexivity.
Qed.

(** X1: a text whose lines all fit the width comes back from
    [process_text] exactly as it went in. *)
Theorem process_text_fitting (text : string)
  (Hfit : Forall (fun line => (getsize line <= max_line_length)%N)
            (split_on "010"%char text)) :
  process_text getsize textsize max_line_length text = (text, textsize text).
Proof.
  unfold process_text.
  rewrite (fold_wrap_line_fitting _ Hfit). simpl app.
  rewrite concat_split_on. reflexivity.
Qed.

(** The word loop only appends lines, and as long as it has appended
    none, everything read so far fits on the line being filled. *)
Lemma wrap_words_appends (words : list string) :
  forall new_line lines,
  exists emitted,
    fst (wrap_words getsize max_line_length words new_line lines) = lines ++ emitted /\
    (emitted = [] -> words <> [] ->
     (getsize (new_line ++ String.concat " " words) <= max_line_length)%N).
Proof.
  induction words as [|word rest IH]; intros new_line lines.
  - exists []. simpl. rewrite app_nil_r. split; [reflexivity | intros _ H; contradiction].
  - cbn [wrap_words].
    destruct (N.leb_spec (getsize (new_line ++ word)) max_line_length) as [Hfit | Hwide].
    + destruct (IH (new_line ++ word ++ " ")%string lines) as (emitted & Hfst & Hnone).
      exists emitted. split; [exact Hfst|].
      intros Hempty _. destruct rest as [|word2 rest].
      * exact Hfit.
      * rewrite concat_cons2.
        specialize (Hnone Hempty ltac:(discriminate)).
        rewrite !append_assoc in Hnone. exact Hnone.
    + destruct (IH (word ++ " ")%string (lines ++ [new_line])) as (emitted & Hfst & _).
      exists (new_line :: emitted). rewrite Hfst, <- app_assoc.
      split; [reflexivity | discriminate].
Qed.

(** After at least one word the line being filled ends with a space. *)
Lemma wrap_words_last (words : list string) :
  forall new_line lines,
    words <> [] ->
    exists body,
      snd (wrap_words getsize max_line_length words new_line lines)
      = (body ++ " ")%string.
Proof.
  induction words as [|word rest IH]; intros new_line lines Hne; [contradiction|].
  cbn [wrap_words].
  destruct (N.leb (getsize (new_line ++ word)) max_line_length).
  - destruct rest as [|word2 rest].
    + exists (new_line ++ word)%string. simpl. rewrite append_assoc. reflexivity.
    + apply IH. discriminate.
  - destruct rest as [|word2 rest].
    + exists word. reflexivity.
    + apply IH. discriminate.
Qed.

Lemma append_space_not_empty (body : string) : (body ++ " ")%string <> EmptyString.
Proof. destruct body; discriminate. Qed.

(** What [wrap_line] returns for a line that does not fit: the lines the
    word loop appended, then the line it was filling. *)
Lemma wrap_line_wide (lines : list string) (line : string) :
  (max_line_length < getsize line)%N ->
  wrap_line getsize max_line_length lines line
  = fst (wrap_words getsize max_line_length (split_on " "%char line) "" lines)
    ++ [snd (wrap_words getsize max_line_length (split_on " "%char line) "" lines)].
Proof.
  intro Hwide. unfold wrap_line.
  destruct (N.leb_spec (getsize line) max_line_length) as [Hfit | _]; [lia|].
  destruct (wrap_words_last (split_on " "%char line) "" lines
              (split_on_nonempty " "%char line)) as [body Hbody].
  destruct (wrap_words getsize max_line_length (split_on " "%char line) "" lines)
    as [lines' new_line].
  simpl in *. subst new_line.
  destruct (String.eqb_spec (body ++ " ") "") as [Habs | _]; [|reflexivity].
  exfalso. exact (append_space_not_empty body Habs).
Qed.

(** X2: a line that does not fit the width is broken into at least two
    lines, whatever the font measures; the lines before it are kept. *)
Theorem wrap_line_breaks (lines : list string) (line : string)
  (Hwide : (max_line_length < getsize line)%N) :
  exists first second more,
    wrap_line getsize max_line_length lines line
    = lines ++ first :: second :: more.
Proof.
  rewrite (wrap_line_wide lines line Hwide).
  destruct (wrap_words_appends (split_on " "%char line) "" lines)
    as (emitted & Hfst & Hnone).
  rewrite Hfst.
  destruct emitted as [|first emitted].
  - exfalso.
    specialize (Hnone eq_refl (split_on_nonempty " "%char line)).
    simpl in Hnone. rewrite concat_split_on in Hnone. lia.
  - set (last := snd (wrap_words getsize max_line_length
                        (split_on " "%char line) "" lines)).
    destruct emitted as [|second emitted].
    + exists first, last, []. rewrite <- app_assoc. reflexivity.
    + exists first, second, (emitted ++ [last]). rewrite <- app_assoc. reflexivity.
Qed.

Lemma wrap_words_ok (words : list string) :
  Forall (fun word => occurs " "%char word = false) words ->
  forall new_line lines,
    wrapped_line_ok getsize max_line_length new_line ->
    Forall (wrapped_line_ok getsize max_line_length) lines ->
    Forall (wrapped_line_ok getsize max_line_length)
      (fst (wrap_words getsize max_line_length words new_line lines)) /\
    wrapped_line_ok getsize max_line_length
      (snd (wrap_words getsize max_line_length words new_line lines)).
Proof.
  induction 1 as [|word rest Hword Hrest IH]; intros new_line lines Hnl Hlines.
  - simpl. split; assumption.
  - cbn [wrap_words].
    destruct (N.leb_spec (getsize (new_line ++ word)) max_line_length) as [Hfit | Hwide].
    + apply IH; [|exact Hlines].
      right. exists (new_line ++ word)%string.
      rewrite append_assoc. split; [reflexivity | left; exact Hfit].
    + apply IH.
      * right. exists word. split; [reflexivity | right; exact Hword].
      * apply Forall_app. split; [exact Hlines | constructor; [exact Hnl | constructor]].
Qed.

(** X3: every line the wrapping of a too-wide line produces is empty or
    a body followed by one space, and the body either fits the width or
    is a single word (a word wider than the width is not split). *)
Theorem wrap_line_lines_ok (line : string)
  (Hwide : (max_line_length < getsize line)%N) :
  Forall (wrapped_line_ok getsize max_line_length)
    (wrap_line getsize max_line_length [] line).
Proof.
  rewrite (wrap_line_wide [] line Hwide).
  destruct (wrap_words_ok (split_on " "%char line) (split_on_no_sep " "%char line)
              "" [] (or_introl eq_refl) (Forall_nil _)) as [Hfst Hsnd].
  apply Forall_app. split; [exact Hfst | constructor; [exact Hsnd | constructor]].
Qed.

Lemma wrap_words_glued (words : list string) :
  forall new_line lines,
    (glued (fst (wrap_words getsize max_line_length words new_line lines))
     ++ snd (wrap_words getsize max_line_length words new_line lines)
     = glued lines ++ new_line ++ spaced words)%string.
Proof.
  induction words as [|word rest IH]; intros new_line lines.
  - simpl. rewrite append_nil_r. reflexivity.
  - cbn [wrap_words spaced].
    destruct (N.leb (getsize (new_line ++ word)) max_line_length).
    + rewrite IH, !append_assoc. reflexivity.
    + rewrite IH, glued_app. simpl glued.
      rewrite append_nil_r, !append_assoc. reflexivity.
Qed.

(** X4: wrapping loses nothing: the lines produced for a too-wide line,
    put end to end, are the line itself followed by one space. *)
Theorem wrap_line_keeps_text (line : string)
  (Hwide : (max_line_length < getsize line)%N) :
  glued (wrap_line getsize max_line_length [] line) = (line ++ " ")%string.
Proof.
  rewrite (wrap_line_wide [] line Hwide), glued_app. simpl glued.
  rewrite append_nil_r, wrap_words_glued. simpl.
  rewrite (spaced_concat _ (split_on_nonempty " "%char line)).
  change (String.concat " " (split_on " "%char line))
    with (String.concat (String " "%char EmptyString) (split_on " "%char line)).
  rewrite concat_split_on. reflexivity.
Qed.

End ProcessTextFacts.

Lemma process_text_fitting_witness :
  process_text sample_getsize sample_textsize 50
    ("hi" ++ String "010"%char "you")%string
  = (("hi" ++ String "010"%char "you")%string,
     sample_textsize ("hi" ++ String "010"%char "you")%string).
Proof.
  apply (process_text_fitting sample_getsize sample_textsize 50).
  repeat constructor; vm_compute; discriminate.
Defined.

Lemma wrap_line_breaks_witness :
  exists first second more,
    wrap_line sample_getsize 50 ["title"%string] "hello world"
    = ["title"%string] ++ first :: second :: more.
Proof.
  apply (wrap_line_breaks sample_getsize 50 ["title"%string] "hello world").
  vm_compute. reflexivity.
Defined.

Lemma wrap_line_lines_ok_witness :
  Forall (wrapped_line_ok sample_getsize 50)
    (wrap_line sample_getsize 50 [] "extraordinary in size").
Proof.
  apply (wrap_line_lines_ok sample_getsize 50 "extraordinary in size").
  vm_compute. reflexivity.
Defined.

Lemma wrap_line_keeps_text_witness :
  glued (wrap_line sample_getsize 50 [] "extraordinary in size")
  = ("extraordinary in size" ++ " ")%string.
Proof.
  apply (wrap_line_keeps_text sample_getsize 50 "extraordinary in size").
  vm_compute. reflexivity.
Defined.

(** Wrapping on samples: words are moved to the next line when they no
    longer fit, and a first word that is too wide leaves an empty line
    before it. *)
Example wrap_line_samples :
  wrap_line sample_getsize 50 [] "hello world" = ["hello "; "world "]%string /\
  wrap_line sample_getsize 50 [] "a bc def g" = ["a bc "; "def g "]%string /\
  wrap_line sample_getsize 50 [] "extraordinary in size"
  = [""; "extraordinary "; "in "; "size "]%string.
Proof. repeat split. Qed.

(** ** Which slots become overlays *)

(** X5: [Overlay.__init__] accepts a position label exactly when its
    lower-case form is one of the six labels, and then stores the two
    halves of that form. *)
Theorem position_parts_accepts (position : string) :
  (exists v h, position_parts position = Ok (v, h) /\
               lower position = (v ++ "_" ++ h)%string)
  <-> In (lower position) position_labels.
Proof.
  split.
  - intros (v & h & Hok & _). exact (proj2 (proj2 (position_parts_Ok _ _ _ Hok))).
  - unfold position_labels. simpl.
    intros [H | [H | [H | [H | [H | [H | []]]]]]];
      unfold position_parts; rewrite <- H; simpl;
      eexists; eexists; split; reflexivity.
Qed.

Section SlotFacts.

Variable render_text : SlotData -> string -> string -> N -> N -> option Image.
Variable render_image : string -> SlotData -> option Image.


End SlotFacts.

(** ** Calibration mode *)

Lemma prefix_iff (a b : string) :
  String.prefix a b = true <-> exists post, b = (a ++ post)%string.
Proof.
  revert b. induction a as [|x a IH]; intro b.
  - destruct b; simpl; split; intro; try reflexivity; eexists; reflexivity.
  - destruct b as [|y b]; simpl.
    + split; [discriminate | intros [post H]; discriminate H].
    + destruct (ascii_dec x y) as [-> | Hne].
      * rewrite IH. split; intros [post H]; exists post.
        -- rewrite H. reflexivity.
        -- injection H as ->. reflexivity.
      * split; [discriminate|]. intros [post H]. injection H as H _.
        exfalso. apply Hne. symmetry. exact H.
Qed.

(** [needle in hay] holds exactly when [needle] occurs somewhere in
    [hay]. *)
Lemma str_contains_iff (needle hay : string) :
  str_contains needle hay = true
  <-> exists pre post, hay = (pre ++ needle ++ post)%string.
Proof.
  induction hay as [|c rest IH].
  - cbn [str_contains]. destruct (String.prefix needle "") eqn:E.
    + apply prefix_iff in E. destruct E as [post E].
      split; [intros _; exists EmptyString, post; exact E | reflexivity].
    + split; [discriminate|]. intros (pre & post & H).
      destruct pre; simpl in H.
      * assert (Hp : String.prefix needle "" = true)
          by (apply prefix_iff; exists post; exact H).
        congruence.
      * discriminate H.
  - cbn [str_contains]. destruct (String.prefix needle (String c rest)) eqn:E.
    + apply prefix_iff in E. destruct E as [post E].
      split; [intros _; exists EmptyString, post; exact E | reflexivity].
    + rewrite IH. split.
      * intros (pre & post & H). exists (String c pre), post. rewrite H. reflexivity.
      * intros (pre & post & H). destruct pre as [|d pre]; simpl in H.
        -- assert (Hp : String.prefix needle (String c rest) = true)
             by (apply prefix_iff; exists post; exact H).
           congruence.
        -- injection H as _ H. exists pre, post. exact H.
Qed.

(** Translating the line endings neither makes nor breaks an
    occurrence of ON. *)
Lemma prefix_N_universal_newlines (s : string) :
  String.prefix "N" (universal_newlines false s) = String.prefix "N" s.
Proof.
  destruct s as [|c rest]; [reflexivity|].
  cbn [universal_newlines].
  destruct (Ascii.eqb_spec c "013"%char) as [-> | _]; [reflexivity|].
  destruct (Ascii.eqb_spec c "010"%char) as [-> | _]; [reflexivity|].
  cbn [String.prefix]. destruct (ascii_dec "N" c); [|reflexivity].
  destruct rest; destruct (universal_newlines false _); reflexivity.
Qed.

Lemma str_contains_ON_cons (c : ascii) (t : string) :
  str_contains "ON" (String c t)
  = ((Ascii.eqb c "O"%char && String.prefix "N" t) || str_contains "ON" t)%bool.
Proof.
  cbn [str_contains String.prefix].
  destruct (ascii_dec "O" c) as [<- | Hne].
  - cbn [Ascii.eqb Bool.eqb andb]. destruct (String.prefix "N" t); reflexivity.
  - destruct (Ascii.eqb_spec c "O"%char) as [-> | _]; [contradiction Hne; reflexivity|].
    reflexivity.
Qed.

Lemma str_contains_universal_newlines (s : string) :
  forall after_cr,
    str_contains "ON" (universal_newlines after_cr s) = str_contains "ON" s.
Proof.
  induction s as [|c rest IH]; intro after_cr; [reflexivity|].
  cbn [universal_newlines].
  destruct (Ascii.eqb_spec c "013"%char) as [-> | Hcr].
  - rewrite !str_contains_ON_cons, IH. reflexivity.
  - destruct (Ascii.eqb_spec c "010"%char) as [-> | Hlf].
    + destruct after_cr; rewrite !str_contains_ON_cons, ?IH; reflexivity.
    + rewrite !str_contains_ON_cons, IH, prefix_N_universal_newlines. reflexivity.
Qed.

(** What the [try] block on the flag leaves in [self.defaults]: true
    exactly for a file that reads as a text with ON in it. *)
Lemma read_calibration_flag_iff (f : File) :
  read_calibration_flag f = true
  <-> exists pre post, f = Text (pre ++ "ON" ++ post)%string.
Proof.
  destruct f as [|e|e|content]; cbn [read_calibration_flag].
  - split; [discriminate | intros (pre & post & H); discriminate H].
  - split; [discriminate | intros (pre & post & H); discriminate H].
  - split; [discriminate | intros (pre & post & H); discriminate H].
  - unfold read. rewrite str_contains_universal_newlines, str_contains_iff.
    split.
    + intros (pre & post & ->). exists pre, post. reflexivity.
    + intros (pre & post & H). injection H as ->. exists pre, post. reflexivity.
Qed.

(** X7: when [Camera.__init__] returns, the camera calibrates exactly
    when the configuration sets [calibrate] to true, or does not set it
    at all while the flag file exists, reads as text and has the letters
    ON somewhere in it.  An entry in the configuration, true or false,
    wins over the file; a flag file whose reading raises counts as
    absent (the [except] clause logs and goes on); and [__init__]
    returns unless opening one of the two calibration files raises. *)
Theorem calibration_mode_resolution (configuration : Configuration)
  (w w' : World) (self : Camera)
  (Hinit : Camera___init__ configuration w = (Ok self, w')) :
  (self_calibrate self = true
   <->
   image_calibrate configuration = Some true \/
   (image_calibrate configuration = None /\
    exists pre post,
      calibration_flag_file w = Text (pre ++ "ON" ++ post)%string)) /\
  (forall e, calibration_flag_file w = Undecodable e ->
             self_calibrate self = true ->
             image_calibrate configuration = Some true) /\
  (forall e, calibration_flag_file w <> Unopenable e) /\
  (forall e, calibrated_parameters_file w <> Unopenable e).
Proof.
  unfold Camera___init__ in Hinit.
  destruct (open_if_exists (calibration_flag_file w)) as [[]|e1] eqn:Eflag;
    [|discriminate Hinit].
  destruct (open_if_exists (calibrated_parameters_file w)) as [[]|e2] eqn:Epar;
    [|discriminate Hinit].
  injection Hinit as <- _.
  unfold self_calibrate. cbn [attr_calibrate defaults_calibrate].
  split; [|split; [|split]].
  - destruct (image_calibrate configuration) as [[|]|].
    + split; [left; reflexivity | reflexivity].
    + split; [discriminate|]. intros [H | [H _]]; discriminate H.
    + rewrite read_calibration_flag_iff. split.
      * intro H. right. split; [reflexivity | exact H].
      * intros [H | [_ H]]; [discriminate H | exact H].
  - intros e He. rewrite He.
    destruct (image_calibrate configuration) as [[|]|];
      cbn [read_calibration_flag]; intro H; try reflexivity; discriminate H.
  - intros e He. rewrite He in Eflag. discriminate Eflag.
  - intros e He. rewrite He in Epar. discriminate Epar.
Qed.

Lemma calibration_mode_resolution_witness :
  self_calibrate
    {| attr_calibrate := None; attr_date_format := None;
       attr_time_format := None; defaults_calibrate := true;
       overlays := [] |} = true
  <->
  image_calibrate no_configuration = Some true \/
  (image_calibrate no_configuration = None /\
   exists pre post,
     calibration_flag_file (initial_world (Some "CALIBRATION: ON"%string) None)
     = Text (pre ++ "ON" ++ post)%string).
Proof.
  apply (calibration_mode_resolution no_configuration
           (initial_world (Some "CALIBRATION: ON"%string) None)
           (initial_world (Some "CALIBRATION: ON"%string) None)).
  vm_compute. reflexivity.
Defined.

(** The flag on samples: any text containing ON turns calibration on,
    and a [calibrate] entry of the configuration overrides the file. *)
Example calibration_flag_samples :
  (forall content,
     In content ["ON"; "calibration ON"; "NONE"; "MONDAY"]%string ->
     exists self w,
       Camera___init__ no_configuration (initial_world (Some content) None)
       = (Ok self, w) /\ self_calibrate self = true) /\
  (forall content,
     In content ["OFF"; "on"; "O N"; ""]%string ->
     exists self w,
       Camera___init__ no_configuration (initial_world (Some content) None)
       = (Ok self, w) /\ self_calibrate self = false) /\
  (exists self w,
     Camera___init__
       {| image_calibrate := Some false; image_date_format := None;
          image_time_format := None; config_overlays := None |}
       (initial_world (Some "ON"%string) None)
     = (Ok self, w) /\ self_calibrate self = false).
Proof.
  split; [|split].
  - intros content [<- | [<- | [<- | [<- | []]]]];
      eexists; eexists; split; reflexivity.
  - intros content [<- | [<- | [<- | [<- | []]]]];
      eexists; eexists; split; reflexivity.
  - eexists; eexists; split; reflexivity.
Qed.

(** The flag file out of order: a file that holds ON in bytes that do
    not decode leaves calibration off, since the [except] clause takes
    the failure of [read]; a file that cannot be opened stops
    [__init__], since [open] is called outside the [try]; and the same
    goes for the file of the overridden parameters. *)
Example calibration_flag_out_of_order :
  (exists self,
     Camera___init__ no_configuration
       (world_with_files (Undecodable UnicodeDecodeError) Missing)
     = (Ok self, world_with_files (Undecodable UnicodeDecodeError) Missing) /\
     self_calibrate self = false) /\
  Camera___init__ no_configuration
    (world_with_files (Unopenable PermissionError) Missing)
  = (Raised PermissionError, world_with_files (Unopenable PermissionError) Missing) /\
  (exists self,
     Camera___init__ no_configuration
       (world_with_files (Text "ON") (Undecodable UnicodeDecodeError))
     = (Ok self, world_with_files (Text "ON") (Undecodable UnicodeDecodeError)) /\
     self_calibrate self = true) /\
  Camera___init__ no_configuration
    (world_with_files (Text "ON") (Unopenable PermissionError))
  = (Raised PermissionError,
     world_with_files (Text "ON") (Unopenable PermissionError)).
Proof.
  split; [eexists; split; reflexivity|].
  split; [reflexivity|].
  split; [eexists; split; reflexivity|].
  reflexivity.
Qed.

(** Line endings of the parameter file: the first line ends at a line
    feed, at a carriage return, or at the pair of them. *)
Example readlines_samples :
  readlines "500000 50000" = ["500000 50000"]%string /\
  readlines (String "a" (String "013" (String "010" (String "b" EmptyString))))
  = [String "a" (String "010" EmptyString); "b"%string] /\
  readlines (String "a" (String "013" (String "b" (String "010" EmptyString))))
  = [String "a" (String "010" EmptyString); String "b" (String "010" EmptyString)] /\
  readlines "" = [].
Proof. repeat split. Qed.

(** ** Targets and speeds of the low-light correction *)





(** Between the two luminances of X12 lies the double next to
    0.20408163265306123, just above 10/49: the exact sum there is below
    3000000, its double is 3000000. *)
Example corrected_speed_at_the_cap :
  exists lum,
    round_double (20408163265306123 # 100000000000000000) = Some lum /\
    (10 # 49 < lum)%Q /\ (lum < 600000 # 2939999)%Q /\
    SHUTTER_SPEED_FROM_LUMINANCE_double lum 600000 60000 = Ok (Some 3000000) /\
    SHUTTER_SPEED_FROM_LUMINANCE lum 600000 60000 = Ok (Some 2999999).
Proof.
  eexists. split; [vm_compute; reflexivity|].
  repeat match goal with |- _ /\ _ => split end; vm_compute; reflexivity.
Qed.

(** X16: outside calibration [shoot_picture] never loops: for every
    device it returns, even without fuel, after the first capture alone
    or after the first capture and one more. *)
Theorem shoot_picture_at_most_two (dev : Device) (fuel : nat)
  (self : Camera) (w : World)
  (Hmode : self_calibrate self = false) :
  exists r w',
    shoot_picture dev fuel self w = Some (r, w') /\
    (shots w' = shots w ++ [None] \/
     exists setting, shots w' = shots w ++ [None; setting]).
Proof.
  unfold shoot_picture, bind, _shoot_picture, open_temp_photo.
  destruct (dev (List.length (shots w)) None) as [photo|].
  - cbn [temp_photo record_shot].
    set (w1 := record_shot None (Some photo) w).
    assert (Hw1 : shots w1 = shots w ++ [None]) by reflexivity.
    destruct (Qle_bool MINIMUM_DAYLIGHT_LUMINANCE (LUMINANCE_FROM_PICTURE photo)).
    + eexists; eexists. split; [reflexivity|]. left. exact Hw1.
    + rewrite Hmode. cbn [negb].
      unfold SHUTTER_SPEED_FROM_PICTURE, raise.
      destruct (SHUTTER_SPEED_FROM_LUMINANCE (LUMINANCE_FROM_PICTURE photo)
                  (LUM_SPEED_PARAM_A w1) (LUM_SPEED_PARAM_B w1)) as [[speed|]|e].
      * destruct (dev (List.length (shots w1))
                    (if Z.eqb speed 0 then None else Some speed));
          eexists; eexists; (split; [reflexivity|]); right;
          eexists; cbn [shots record_shot]; rewrite Hw1, <- app_assoc; reflexivity.
      * eexists; eexists. split; [reflexivity|]. left. exact Hw1.
      * eexists; eexists. split; [reflexivity|]. left. exact Hw1.
  - eexists; eexists. split; [reflexivity|]. left. reflexivity.
Qed.

Lemma shoot_picture_at_most_two_witness :
  exists r w',
    shoot_picture (two_level_device 30 5) 0 (plain_camera false)
      (initial_world None None) = Some (r, w') /\
    (shots w' = shots (initial_world None None) ++ [None] \/
     exists setting,
       shots w' = shots (initial_world None None) ++ [None; setting]).
Proof.
  apply (shoot_picture_at_most_two (two_level_device 30 5) 0 (plain_camera false)).
  reflexivity.
Defined.

(** ** The calibration search, pass by pass *)

Section CalibrationPasses.

Variable dev : Device.
Variables luminance target_luminance : Q.

(** The three ways a pass can go, with the world each leaves: the
    capture raises; the frame is within the margin and the pass breaks
    after writing a row; or the frame is too dark (too bright) and the
    lower (upper) bound moves to the midpoint, the pass breaking when
    the bounds are then closer than 5. *)
Lemma calibration_iteration_outcome (st : Search) (w : World) :
  bounds_ok st ->
  (dev (List.length (shots w)) (Some (midpoint st)) = None /\
   calibration_iteration dev luminance target_luminance st w
   = (Raised PiCameraError, record_shot (Some (midpoint st)) None w))
  \/
  exists photo,
    dev (List.length (shots w)) (Some (midpoint st)) = Some photo /\
    ((target_luminance - 1 <= photo_luminance photo)%Q /\
     (photo_luminance photo <= target_luminance + 1)%Q /\
     calibration_iteration dev luminance target_luminance st w
     = (Ok (Break true (midpoint st) (photo_luminance photo)
              {| min_speed := min_speed st; max_speed := max_speed st;
                 i := i st + 1 |}),
        append_csv (luminance, photo_luminance photo, midpoint st)
          (record_shot (Some (midpoint st)) (Some photo) w))
     \/
     exists flow st',
       calibration_iteration dev luminance target_luminance st w
       = (Ok flow, record_shot (Some (midpoint st)) (Some photo) w) /\
       ((photo_luminance photo < target_luminance - 1)%Q /\
        st' = {| min_speed := midpoint st; max_speed := max_speed st;
                 i := i st + 1 |}
        \/
        (target_luminance + 1 < photo_luminance photo)%Q /\
        st' = {| min_speed := min_speed st; max_speed := midpoint st;
                 i := i st + 1 |}) /\
       (flow = Break false (midpoint st) (photo_luminance photo) st' /\
        min_speed st' + 5 > max_speed st'
        \/
        flow = Continue st' /\ min_speed st' + 5 <= max_speed st')).
Proof.
  intro Hok.
  destruct (midpoint_between st Hok) as [_ Hbetween].
  destruct Hok as [Hpos Hle].
  assert (Hnz : Z.eqb (midpoint st) 0 = false) by (apply Z.eqb_neq; lia).
  unfold calibration_iteration, bind, _shoot_picture, open_temp_photo.
  fold (midpoint st). rewrite Hnz.
  destruct (dev (List.length (shots w)) (Some (midpoint st))) as [photo|];
    [right; exists photo; split; [reflexivity|] | left; split; reflexivity].
  simpl temp_photo. cbv beta iota.
  unfold LUMINANCE_FROM_PICTURE, TARGET_LUMINOSITY_MARGIN.
  case_Qle (target_luminance - 1)%Q (photo_luminance photo);
    [case_Qle (photo_luminance photo) (target_luminance + 1)%Q|]; cbn [andb].
  - left. repeat split; assumption.
  - right. case_Qlt (photo_luminance photo) (target_luminance - 1)%Q; [lra|].
    cbn [min_speed max_speed]. unfold ret.
    destruct (Z.gtb_spec (min_speed st + 5) (midpoint st));
      eexists; eexists; (split; [reflexivity|]);
      (split; [right; split; [assumption | reflexivity]|]);
      cbn [min_speed max_speed]; [left | right]; split; try reflexivity; lia.
  - right. case_Qlt (photo_luminance photo) (target_luminance - 1)%Q; [|lra].
    cbn [min_speed max_speed]. unfold ret.
    destruct (Z.gtb_spec (midpoint st + 5) (max_speed st));
      eexists; eexists; (split; [reflexivity|]);
      (split; [left; split; [assumption | reflexivity]|]);
      cbn [min_speed max_speed]; [left | right]; split; try reflexivity; lia.
Qed.

(** A finished run of the loop is some number of full passes followed by
    one last pass that breaks or raises. *)
Lemma calibration_loop_last_pass (fuel : nat) :
  forall (st : Search) (w : World) (r : result Flow) (w' : World),
    calibration_loop dev fuel luminance target_luminance st w = Some (r, w') ->
    exists n st_n w_n,
      calibration_passes dev luminance target_luminance n st w = Some (st_n, w_n) /\
      calibration_iteration dev luminance target_luminance st_n w_n = (r, w') /\
      (forall st', r <> Ok (Continue st')).
Proof.
  induction fuel as [|fuel IH]; intros st w r w' Hrun; simpl in Hrun.
  - discriminate.
  - destruct (calibration_iteration dev luminance target_luminance st w)
      as [[[b s l st1|st1]|e] w1] eqn:Epass.
    + injection Hrun as <- <-. exists 0%nat, st, w.
      split; [reflexivity|]. split; [exact Epass | discriminate].
    + destruct (IH st1 w1 r w' Hrun) as (n & st_n & w_n & Hpasses & Hlast & Hnot).
      exists (S n), st_n, w_n. simpl. rewrite Epass. auto.
    + injection Hrun as <- <-. exists 0%nat, st, w.
      split; [reflexivity|]. split; [exact Epass | discriminate].
Qed.

(** What every full pass preserves holds after any number of them. *)
Lemma calibration_passes_invariant (Inv : Search -> World -> Prop) :
  (forall st w st' w',
     Inv st w ->
     calibration_iteration dev luminance target_luminance st w
     = (Ok (Continue st'), w') ->
     Inv st' w') ->
  forall n st w st' w',
    Inv st w ->
    calibration_passes dev luminance target_luminance n st w = Some (st', w') ->
    Inv st' w'.
Proof.
  intros Hstep n. induction n as [|n IH]; intros st w st' w' Hinv Hrun; simpl in Hrun.
  - injection Hrun as <- <-. exact Hinv.
  - destruct (calibration_iteration dev luminance target_luminance st w)
      as [[[b s l st1|st1]|e] w1] eqn:Epass; try discriminate.
    exact (IH st1 w1 st' w' (Hstep st w st1 w1 Hinv Epass) Hrun).
Qed.

End CalibrationPasses.

(** X8: every capture the calibration search makes, from the state
    [shoot_picture] starts it in, is at a shutter speed strictly between
    [MIN_SHUTTER_SPEED] and [MAX_SHUTTER_SPEED]; the search makes at
    least one. *)
Theorem calibration_speeds_in_range (dev : Device)
  (luminance target_luminance : Q) (fuel : nat)
  (w w' : World) (r : result Flow)
  (Hrun : calibration_loop dev fuel luminance target_luminance search_start w
          = Some (r, w')) :
  exists speeds,
    shots w' = shots w ++ map Some speeds /\
    speeds_in_range speeds /\
    speeds <> [].
Proof.
  set (Inv := fun (st : Search) (w1 : World) =>
                MIN_SHUTTER_SPEED <= min_speed st /\
                max_speed st <= MAX_SHUTTER_SPEED /\
                min_speed st + 5 <= max_speed st /\
                exists speeds,
                  shots w1 = shots w ++ map Some speeds /\ speeds_in_range speeds).
  assert (Hinside : forall st, MIN_SHUTTER_SPEED <= min_speed st ->
                               max_speed st <= MAX_SHUTTER_SPEED ->
                               min_speed st + 5 <= max_speed st ->
                               bounds_ok st /\
                               MIN_SHUTTER_SPEED < midpoint st < MAX_SHUTTER_SPEED /\
                               min_speed st <= midpoint st <= max_speed st).
  { intros st Hlo Hhi Hfar.
    assert (Hok : bounds_ok st)
      by (unfold bounds_ok, MIN_SHUTTER_SPEED in *; lia).
    destruct (midpoint_between st Hok) as [Hmid Hbetween].
    split; [exact Hok|]. split; [|exact Hbetween].
    rewrite Hmid. unfold MIN_SHUTTER_SPEED, MAX_SHUTTER_SPEED in *. solve_halving. }
  assert (Hstart : Inv search_start w).
  { unfold Inv, search_start, MIN_SHUTTER_SPEED, MAX_SHUTTER_SPEED. simpl.
    repeat split; try lia. exists []. simpl. rewrite app_nil_r.
    split; [reflexivity | constructor]. }
  assert (Hstep : forall st w1 st' w1',
             Inv st w1 ->
             calibration_iteration dev luminance target_luminance st w1
             = (Ok (Continue st'), w1') -> Inv st' w1').
  { intros st w1 st' w1' (Hlo & Hhi & Hfar & speeds & Hshots & Hrange) Hpass.
    destruct (Hinside st Hlo Hhi Hfar) as (Hok & Hmid & Hbetween).
    destruct (calibration_iteration_spec dev luminance target_luminance st w1 Hok)
      as (r1 & w2 & Hrun1 & Hshots1 & Hr1).
    rewrite Hpass in Hrun1. injection Hrun1 as <- <-.
    destruct (calibration_iteration_outcome dev luminance target_luminance st w1 Hok)
      as [[_ Hraise] | (photo & _ & [(_ & _ & Hbreak) | (flow & st1 & Hflow & Hst1 & Hend)])];
      try (rewrite Hpass in *; discriminate).
    rewrite Hpass in Hflow. injection Hflow as <- _.
    destruct Hend as [[Habs _] | [Hcont Hfar1]]; [discriminate Habs|].
    injection Hcont as <-.
    unfold Inv. split; [|split; [|split; [exact Hfar1|]]].
    - destruct Hst1 as [[_ ->] | [_ ->]]; simpl; lia.
    - destruct Hst1 as [[_ ->] | [_ ->]]; simpl; lia.
    - exists (speeds ++ [midpoint st]).
      rewrite Hshots1, Hshots, map_app, <- app_assoc.
      split; [reflexivity|].
      apply Forall_app. split; [exact Hrange | constructor; [exact Hmid | constructor]]. }
  destruct (calibration_loop_last_pass dev luminance target_luminance fuel
              search_start w r w' Hrun) as (n & st_n & w_n & Hpasses & Hlast & _).
  pose proof (calibration_passes_invariant dev luminance target_luminance Inv Hstep
                n search_start w st_n w_n Hstart Hpasses)
    as (Hlo & Hhi & Hfar & speeds & Hshots & Hrange).
  destruct (Hinside st_n Hlo Hhi Hfar) as (Hok & Hmid & _).
  destruct (calibration_iteration_spec dev luminance target_luminance st_n w_n Hok)
    as (r1 & w2 & Hrun1 & Hshots1 & _).
  rewrite Hlast in Hrun1. injection Hrun1 as <- <-.
  exists (speeds ++ [midpoint st_n]).
  rewrite Hshots1, Hshots, map_app, <- app_assoc.
  split; [reflexivity|]. split.
  - apply Forall_app. split; [exact Hrange | constructor; [exact Hmid | constructor]].
  - destruct speeds; discriminate.
Qed.

Lemma calibration_speeds_in_range_witness :
  exists speeds,
    shots (record_shot (Some 30002) (Some {| photo_luminance := 255 |})
             world_after_19_passes)
    = shots (after_first_shot 10) ++ map Some speeds /\
    speeds_in_range speeds /\
    speeds <> [].
Proof.
  apply (calibration_speeds_in_range (two_level_device 10 255) 10 40 20
           (after_first_shot 10)
           (record_shot (Some 30002) (Some {| photo_luminance := 255 |})
              world_after_19_passes)
           (Ok (Break false 30002 255
                  {| min_speed := 30000; max_speed := 30002; i := 20 |}))).
  vm_compute. reflexivity.
Defined.

(** X9: the calibration table gets a row only from a search that ends
    within the margin: then exactly one row is appended, holding the
    first luminance, the final luminance (within 1 of the target) and
    the speed, and the photo left in the temporary file is the one with
    that luminance.  A search that gives up, or is cut short by the
    device, leaves the table as it was. *)
Theorem calibration_table_row (dev : Device)
  (luminance target_luminance : Q) (fuel : nat)
  (st : Search) (w w' : World) (r : result Flow)
  (Hok : bounds_ok st)
  (Hrun : calibration_loop dev fuel luminance target_luminance st w = Some (r, w')) :
  match r with
  | Ok (Break true speed l _) =>
      calibration_csv w' = calibration_csv w ++ [(luminance, l, speed)] /\
      (target_luminance - 1 <= l)%Q /\ (l <= target_luminance + 1)%Q /\
      temp_photo w' = Some {| photo_luminance := l |}
  | Ok (Break false speed l _) =>
      calibration_csv w' = calibration_csv w /\
      ((l < target_luminance - 1)%Q \/ (target_luminance + 1 < l)%Q) /\
      temp_photo w' = Some {| photo_luminance := l |}
  | Ok (Continue _) => False
  | Raised _ => calibration_csv w' = calibration_csv w
  end.
Proof.
  set (Inv := fun (st1 : Search) (w1 : World) =>
                bounds_ok st1 /\ calibration_csv w1 = calibration_csv w).
  assert (Hstep : forall st1 w1 st2 w2,
             Inv st1 w1 ->
             calibration_iteration dev luminance target_luminance st1 w1
             = (Ok (Continue st2), w2) -> Inv st2 w2).
  { intros st1 w1 st2 w2 [Hok1 Hcsv] Hpass.
    destruct (calibration_iteration_spec dev luminance target_luminance st1 w1 Hok1)
      as (r1 & w3 & Hrun1 & _ & Hr1).
    rewrite Hpass in Hrun1. injection Hrun1 as <- <-.
    destruct Hr1 as (Hok2 & _). split; [exact Hok2|].
    destruct (calibration_iteration_outcome dev luminance target_luminance st1 w1 Hok1)
      as [[_ Hraise] | (photo & _ & [(_ & _ & Hbreak) | (flow & st3 & Hflow & _)])];
      try (rewrite Hpass in *; discriminate).
    rewrite Hpass in Hflow. injection Hflow as _ ->. exact Hcsv. }
  destruct (calibration_loop_last_pass dev luminance target_luminance fuel
              st w r w' Hrun) as (n & st_n & w_n & Hpasses & Hlast & Hnot).
  pose proof (calibration_passes_invariant dev luminance target_luminance Inv Hstep
                n st w st_n w_n (conj Hok eq_refl) Hpasses) as [Hok_n Hcsv].
  destruct (calibration_iteration_outcome dev luminance target_luminance st_n w_n Hok_n)
    as [[_ Hraise] | (photo & _ & [(Hlo & Hhi & Hbreak) | (flow & st1 & Hflow & Hst1 & Hend)])].
  - rewrite Hlast in Hraise. injection Hraise as -> ->. exact Hcsv.
  - rewrite Hlast in Hbreak. injection Hbreak as -> ->.
    simpl. rewrite Hcsv. destruct photo. auto.
  - rewrite Hlast in Hflow. injection Hflow as -> ->.
    destruct Hend as [[-> _] | [-> _]]; [|exact (Hnot st1 eq_refl)].
    simpl. split; [exact Hcsv|]. split; [|destruct photo; reflexivity].
    destruct Hst1 as [[H _] | [H _]]; auto.
Qed.

Lemma calibration_table_row_witness :
  calibration_csv
    (append_csv (10%Q, 40%Q, 1515000)
       (record_shot (Some 1515000) (Some {| photo_luminance := 40 |})
          (after_first_shot 10)))
  = calibration_csv (after_first_shot 10) ++ [(10%Q, 40%Q, 1515000)] /\
  (40 - 1 <= 40)%Q /\ (40 <= 40 + 1)%Q /\
  temp_photo
    (append_csv (10%Q, 40%Q, 1515000)
       (record_shot (Some 1515000) (Some {| photo_luminance := 40 |})
          (after_first_shot 10)))
  = Some {| photo_luminance := 40 |}.
Proof.
  apply (calibration_table_row (two_level_device 10 40) 10 40 20 search_start
           (after_first_shot 10)
           (append_csv (10%Q, 40%Q, 1515000)
              (record_shot (Some 1515000) (Some {| photo_luminance := 40 |})
                 (after_first_shot 10)))
           (Ok (Break true 1515000 40
                  {| min_speed := 30000; max_speed := 3000000; i := 1 |}))).
  - exact search_start_bounds_ok.
  - vm_compute. reflexivity.
Defined.

(** X10: against a device whose luminance depends on the shutter speed
    alone and never falls when the speed rises, a search that gives up
    has missed little: the bounds it ends with are less than 5 apart, and
    every speed of the range that would have met the margin lies
    strictly between them. *)
Theorem calibration_gives_up_narrowly (dev : Device) (f : Z -> Q)
  (luminance target_luminance : Q) (fuel : nat)
  (w w' : World) (speed : Z) (l : Q) (st : Search)
  (Hdev : forall n z, dev n (Some z) = Some {| photo_luminance := f z |})
  (Hmono : forall a b, a <= b -> (f a <= f b)%Q)
  (Hrun : calibration_loop dev fuel luminance target_luminance search_start w
          = Some (Ok (Break false speed l st), w')) :
  max_speed st - min_speed st < 5 /\
  forall z,
    MIN_SHUTTER_SPEED < z < MAX_SHUTTER_SPEED ->
    (target_luminance - 1 <= f z)%Q -> (f z <= target_luminance + 1)%Q ->
    min_speed st < z < max_speed st.
Proof.
  set (Inv := fun (st1 : Search) (w1 : World) =>
                bounds_ok st1 /\
                (min_speed st1 = MIN_SHUTTER_SPEED \/
                 (f (min_speed st1) < target_luminance - 1)%Q) /\
                (max_speed st1 = MAX_SHUTTER_SPEED \/
                 (target_luminance + 1 < f (max_speed st1))%Q)).
  assert (Hnarrow : forall st1 w1 flow st2 w2,
             Inv st1 w1 ->
             calibration_iteration dev luminance target_luminance st1 w1
             = (Ok flow, w2) ->
             (exists b s l2, flow = Break b s l2 st2 /\ b = false) \/ flow = Continue st2 ->
             (min_speed st2 = MIN_SHUTTER_SPEED \/
              (f (min_speed st2) < target_luminance - 1)%Q) /\
             (max_speed st2 = MAX_SHUTTER_SPEED \/
              (target_luminance + 1 < f (max_speed st2))%Q)).
  { intros st1 w1 flow st2 w2 (Hok1 & Hlo & Hhi) Hpass Hflow.
    destruct (calibration_iteration_outcome dev luminance target_luminance st1 w1 Hok1)
      as [[_ Hraise] | (photo & Hphoto & [(_ & _ & Hbreak) | (flow1 & st3 & Hflow1 & Hst3 & Hend)])].
    - rewrite Hpass in Hraise. discriminate.
    - rewrite Hpass in Hbreak. injection Hbreak as -> _.
      destruct Hflow as [(b & s & l2 & Hb & ->) | Hc]; discriminate.
    - rewrite Hpass in Hflow1. injection Hflow1 as <- _.
      rewrite Hdev in Hphoto. injection Hphoto as <-. simpl in Hst3.
      assert (Hsame : st2 = st3).
      { destruct Hend as [[-> _] | [-> _]];
          destruct Hflow as [(b & s & l2 & Hb & _) | Hc]; congruence. }
      subst st3.
      destruct Hst3 as [[Hdark ->] | [Hbright ->]]; simpl; auto. }
  assert (Hstep : forall st1 w1 st2 w2,
             Inv st1 w1 ->
             calibration_iteration dev luminance target_luminance st1 w1
             = (Ok (Continue st2), w2) -> Inv st2 w2).
  { intros st1 w1 st2 w2 Hinv Hpass.
    destruct (calibration_iteration_spec dev luminance target_luminance st1 w1
                (proj1 Hinv)) as (r1 & w3 & Hrun1 & _ & Hr1).
    rewrite Hpass in Hrun1. injection Hrun1 as <- <-.
    split; [exact (proj1 Hr1)|].
    exact (Hnarrow st1 w1 (Continue st2) st2 w2 Hinv Hpass (or_intror eq_refl)). }
  assert (Hstart : Inv search_start w).
  { split; [exact search_start_bounds_ok|]. split; left; reflexivity. }
  destruct (calibration_loop_last_pass dev luminance target_luminance fuel
              search_start w _ w' Hrun) as (n & st_n & w_n & Hpasses & Hlast & _).
  pose proof (calibration_passes_invariant dev luminance target_luminance Inv Hstep
                n search_start w st_n w_n Hstart Hpasses) as Hinv.
  destruct (Hnarrow st_n w_n (Break false speed l st) st w' Hinv Hlast
              (or_introl (ex_intro _ false (ex_intro _ speed (ex_intro _ l
                 (conj eq_refl eq_refl))))))
    as [Hlo Hhi].
  assert (Hguard : min_speed st + 5 > max_speed st).
  { destruct (calibration_iteration_outcome dev luminance target_luminance st_n w_n
                (proj1 Hinv))
      as [[_ Hraise] | (photo & _ & [(_ & _ & Hbreak) | (flow1 & st3 & Hflow1 & _ & Hend)])];
      try (rewrite Hlast in *; discriminate).
    rewrite Hlast in Hflow1. injection Hflow1 as <- _.
    destruct Hend as [[Hb Hg] | [Hc _]]; [|discriminate Hc].
    injection Hb as _ _ Hst. rewrite Hst. exact Hg. }
  split; [lia|].
  intros z Hz Hzlo Hzhi. split.
  - destruct (Z.lt_ge_cases (min_speed st) z) as [Hlt | Hge]; [exact Hlt|].
    exfalso. destruct Hlo as [Hmin | Hdark]; [lia|].
    pose proof (Hmono z (min_speed st) Hge). lra.
  - destruct (Z.lt_ge_cases z (max_speed st)) as [Hlt | Hge]; [exact Hlt|].
    exfalso. destruct Hhi as [Hmax | Hbright]; [lia|].
    pose proof (Hmono (max_speed st) z Hge). lra.
Qed.

Lemma narrow_response_monotone (a b : Z) :
  a <= b -> (narrow_response a <= narrow_response b)%Q.
Proof.
  intro H. unfold narrow_response.
  destruct (Z.ltb_spec a 100000); destruct (Z.ltb_spec b 100000);
    destruct (Z.eqb_spec a 100000); destruct (Z.eqb_spec b 100000);
    try lia; try (vm_compute; discriminate).
Qed.

Lemma calibration_gives_up_narrowly_witness :
  max_speed {| min_speed := 99998; max_speed := 100001; i := 20 |}
  - min_speed {| min_speed := 99998; max_speed := 100001; i := 20 |} < 5 /\
  forall z,
    MIN_SHUTTER_SPEED < z < MAX_SHUTTER_SPEED ->
    (40 - 1 <= narrow_response z)%Q -> (narrow_response z <= 40 + 1)%Q ->
    min_speed {| min_speed := 99998; max_speed := 100001; i := 20 |} < z
    < max_speed {| min_speed := 99998; max_speed := 100001; i := 20 |}.
Proof.
  apply (calibration_gives_up_narrowly (speed_device 10 narrow_response)
           narrow_response 10 40 20 (after_first_shot 10)
           world_after_narrow_search 100001 255).
  - intros n z. reflexivity.
  - exact narrow_response_monotone.
  - vm_compute. reflexivity.
Defined.

(** The narrow sensor on a sample: the one speed that meets the margin,
    100000, is between the bounds the search ends with, and is never
    tried. *)
Example narrow_search_sample :
  calibration_loop (speed_device 10 narrow_response) 20 10 40 search_start
    (after_first_shot 10)
  = Some (Ok (Break false 100001 255
                {| min_speed := 99998; max_speed := 100001; i := 20 |}),
          world_after_narrow_search) /\
  (narrow_response 100000 == 40)%Q /\
  ~ In (Some 100000) (shots world_after_narrow_search).
Proof.
  split; [vm_compute; reflexivity|]. split; [reflexivity|].
  vm_compute. intuition discriminate.
Qed.

(** ** Where the overlays land *)


Lemma border_heights_In (edge : string) (rendered : list Overlay)
  (o : Overlay) (img : Image) :
  In o rendered ->
  attr_rendered_image o = Some (Some img) ->
  vertical_position o = edge ->
  over_the_picture_flag o = false ->
  (height img <= list_max (border_heights edge rendered))%N.
Proof.
  intros Hin Himg Hedge Hflag.
  assert (Hmem : In (height img) (border_heights edge rendered)).
  { induction rendered as [|o' rest IH]; [contradiction|].
    destruct Hin as [-> | Hin].
    - simpl. rewrite Himg, Hedge, Hflag, String.eqb_refl. simpl. left. reflexivity.
    - simpl. specialize (IH Hin).
      destruct (attr_rendered_image o') as [[img'|]|]; try exact IH.
      destruct (String.eqb (vertical_position o') edge && negb (over_the_picture_flag o'))%bool;
        [right; exact IH | exact IH]. }
  destruct (list_max_is_max (border_heights edge rendered)) as [[Hnil _] | [_ Hall]].
  - rewrite Hnil in Hmem. contradiction.
  - rewrite Forall_forall in Hall. exact (Hall _ Hmem).
Qed.

(** The third loop pastes, for each rendered overlay in turn, its image
    at the corner [compute_position] gives on the finished canvas. *)
Lemma paste_overlays_layers (rendered : list Overlay) (border_top border_bottom : N) :
  Forall well_rendered rendered ->
  forall image : Canvas,
  exists pasted,
    paste_overlays rendered image border_top border_bottom
    = Ok {| canvas_width := canvas_width image;
            canvas_height := canvas_height image;
            layers := layers image ++ pasted |} /\
    Forall2 (fun o layer =>
               attr_rendered_image o = Some (Some (fst layer)) /\
               compute_position o (Z.of_N (canvas_width image))
                 (Z.of_N (canvas_height image))
                 (Z.of_N border_top) (Z.of_N border_bottom)
               = Ok (snd layer))
      rendered pasted.
Proof.
  induction 1 as [|o rest Ho Hrest IH]; intro image.
  - exists []. simpl. rewrite app_nil_r. destruct image; auto.
  - destruct (well_rendered_getters o Ho) as (_ & img & Hattr & Hget & _).
    destruct (compute_position_defined o (Z.of_N (canvas_width image))
                (Z.of_N (canvas_height image)) (Z.of_N border_top)
                (Z.of_N border_bottom) Ho) as [xy Hxy].
    cbn [paste_overlays]. rewrite Hget. simpl rbind. rewrite Hxy. simpl rbind.
    destruct (IH (paste img xy image)) as (pasted & Hrun & Hall).
    exists ((img, xy) :: pasted). rewrite Hrun. simpl.
    rewrite <- app_assoc. simpl. split; [reflexivity|].
    constructor; [split; [exact Hattr | exact Hxy] | exact Hall].
Qed.

(** The corner of a rendered overlay, case by case. *)
Lemma compute_position_cases (o : Overlay) (img : Image)
  (image_width image_height border_top border_bottom x y : Z) :
  well_rendered o ->
  attr_rendered_image o = Some (Some img) ->
  compute_position o image_width image_height border_top border_bottom = Ok (x, y) ->
  (horizontal_position o = "left"%string -> x = 0) /\
  (horizontal_position o = "right"%string -> x = image_width - Z.of_N (width img)) /\
  (vertical_position o = "top"%string ->
   y = if over_the_picture_flag o then border_top else 0) /\
  (vertical_position o = "bottom"%string ->
   y = if over_the_picture_flag o
       then image_height - Z.of_N (height img) - border_bottom
       else image_height - Z.of_N (height img)).
Proof.
  intros Hw Himg. destruct (well_rendered_getters o Hw) as (Hover & img' & Himg' & _ & Hsize).
  rewrite Himg in Himg'. injection Himg' as <-.
  unfold compute_position. rewrite Hover, Hsize. simpl.
  destruct (String.eqb_spec (horizontal_position o) "left") as [Hl | Hl];
    [|destruct (String.eqb_spec (horizontal_position o) "right") as [Hr | Hr];
      [|destruct (String.eqb (horizontal_position o) "center")]];
    (destruct (String.eqb_spec (vertical_position o) "top") as [Ht | Ht];
     [|destruct (String.eqb_spec (vertical_position o) "bottom") as [Hb | Hb]]);
    simpl; intro H; injection H as <- <-;
    repeat split; intros; try congruence.
Qed.

(** The corners [compute_position] gives on the finished canvas are
    where [placed] says. *)
Lemma positions_placed (photo : Image) (rendered : list Overlay) :
  let border_top := list_max (border_heights "top" rendered) in
  let border_bottom := list_max (border_heights "bottom" rendered) in
  forall (l : list Overlay) (pasted : list (Image * (Z * Z))),
    (forall o, In o l -> In o rendered) ->
    Forall well_rendered l ->
    Forall2 (fun o layer =>
               attr_rendered_image o = Some (Some (fst layer)) /\
               compute_position o (Z.of_N (width photo))
                 (Z.of_N (height photo + border_top + border_bottom))
                 (Z.of_N border_top) (Z.of_N border_bottom)
               = Ok (snd layer))
      l pasted ->
    Forall2 (placed photo border_top border_bottom) l pasted.
Proof.
  intros border_top border_bottom l pasted Hin Hall Hpos. revert Hin Hall.
  induction Hpos as [|o [img [x y]] l pasted' [Himg Hxy] Hrest IH]; intros Hin Hall;
    constructor.
  - inversion Hall as [|? ? Ho Hall']; subst.
    simpl in Himg, Hxy.
    destruct (compute_position_cases o img _ _ _ _ x y Ho Himg Hxy)
      as (Hleft & Hright & Htop & Hbottom).
    assert (Ho_in : In o rendered) by (apply Hin; left; reflexivity).
    unfold placed. cbn [fst snd].
    split; [exact Himg|]. split; [|split; [|split]].
    + intro Hv. rewrite (Htop Hv).
      destruct (over_the_picture_flag o) eqn:Hflag; [reflexivity|].
      pose proof (border_heights_In "top" rendered o img Ho_in Himg Hv Hflag) as Hh.
      fold border_top in Hh. lia.
    + intro Hv. rewrite (Hbottom Hv).
      destruct (over_the_picture_flag o) eqn:Hflag; [lia|].
      pose proof (border_heights_In "bottom" rendered o img Ho_in Himg Hv Hflag) as Hh.
      fold border_bottom in Hh. lia.
    + exact Hleft.
    + intro Hh. rewrite (Hright Hh). lia.
  - inversion Hall; subst. apply IH; [|assumption].
    intros o' Ho'. apply Hin. right. exact Ho'.
Qed.

Section Layout.

Variable render_text : SlotData -> string -> string -> N -> N -> option Image.
Variable render_image : string -> SlotData -> option Image.

(** X13: on the canvas [process_picture] builds, the rendered overlays
    are pasted after the photo, one layer each and in their order, and
    each lies where [placed] says: an overlay that is not over the
    picture stays inside the border reserved at its edge, so it never
    covers a row of the photo; an overlay over the picture touches the
    top or bottom edge of the photo from inside. *)
Theorem overlays_placed (self : Camera) (photo : Image) :
  let rendered :=
    create_overlays render_text render_image self photo (overlays self) [] in
  let border_top := list_max (border_heights "top" rendered) in
  let border_bottom := list_max (border_heights "bottom" rendered) in
  exists pasted,
    process_picture render_text render_image self (Some photo)
    = Ok (Some {| canvas_width := width photo;
                  canvas_height := (height photo + border_top + border_bottom)%N;
                  layers := (photo, (0, Z.of_N border_top)) :: pasted |}) /\
    Forall2 (placed photo border_top border_bottom) rendered pasted.
Proof.
  intros rendered border_top border_bottom.
  assert (Hall : Forall well_rendered rendered)
    by (apply create_overlays_well_rendered; constructor).
  unfold process_picture. fold rendered.
  rewrite (compute_borders_spec rendered Hall). simpl rbind.
  rewrite !N.max_0_l. cbn [fst snd]. fold border_top border_bottom.
  destruct (paste_overlays_layers rendered border_top border_bottom Hall
              (paste photo (0, Z.of_N border_top)
                 {| canvas_width := width photo;
                    canvas_height := (height photo + border_top + border_bottom)%N;
                    layers := [] |}))
    as (pasted & Hrun & Hpos).
  exists pasted. rewrite Hrun. simpl. split; [reflexivity|].
  simpl in Hpos.
  exact (positions_placed photo rendered rendered pasted (fun o H => H) Hall Hpos).
Qed.

End Layout.

Section Composited.

Variable render_text : SlotData -> string -> string -> N -> N -> option Image.
Variable render_image : string -> SlotData -> option Image.





End Composited.

(** ** main: the retries around take_picture *)

Section MainFacts.

Variable new_camera : M Camera.
Variable camera_take_picture : Camera -> M unit.

(** Once bound, the variable [camera] stays bound; the loop sleeps once
    per failed round, and ends without a picture only after all its
    rounds failed. *)
Lemma take_picture_attempts_facts (n : nat) :
  forall (camera : option Camera) (slept : nat) (w : World),
    let a := fst (take_picture_attempts new_camera camera_take_picture n camera slept w) in
    (camera <> None -> camera_variable a <> None) /\
    (slept <= waits a <= slept + n)%nat /\
    (picture_taken a = true -> camera_variable a <> None /\ (waits a < slept + n)%nat) /\
    (picture_taken a = false -> waits a = (slept + n)%nat).
Proof.
  induction n as [|n IH]; intros camera slept w; cbn [take_picture_attempts].
  - simpl. repeat split; try lia; try discriminate. intro H. exact H.
  - destruct (new_camera w) as [[c|e] w1].
    + destruct (camera_take_picture c w1) as [[u|e] w2].
      * simpl. repeat split; try lia; try discriminate.
      * specialize (IH (Some c) (S slept) w2). simpl in IH.
        destruct IH as (Hkeep & Hw & Htaken & Hnot).
        repeat split; try lia.
        -- intros _. apply Hkeep. discriminate.
        -- apply Htaken. assumption.
        -- specialize (Htaken H). lia.
        -- intro H. rewrite (Hnot H). lia.
    + specialize (IH camera (S slept) w1). simpl in IH.
      destruct IH as (Hkeep & Hw & Htaken & Hnot).
      repeat split; try lia.
      * exact Hkeep.
      * apply Htaken. assumption.
      * specialize (Htaken H). lia.
      * intro H. rewrite (Hnot H). lia.
Qed.

(** X15: when the constructor of the camera returns in the first round,
    [main] goes on to upload whatever happens afterwards, also when
    [take_picture] raised in all three rounds and no picture was taken;
    and it has slept once per failed round, three times exactly when no
    picture was taken. *)
Theorem main_uploads_without_picture (w w1 : World) (c : Camera)
  (Hconstructor : new_camera w = (Ok c, w1)) :
  let a := fst (main_take_picture new_camera camera_take_picture w) in
  main_uploads a = true /\
  (waits a <= 3)%nat /\
  (picture_taken a = false <-> waits a = 3%nat).
Proof.
  intro a.
  pose proof (take_picture_attempts_facts 3 None 0 w) as Hall.
  cbn zeta in Hall. fold (main_take_picture new_camera camera_take_picture w) in Hall.
  fold a in Hall. destruct Hall as (_ & Hw & Htaken & Hnot).
  split; [|split; [lia|]].
  - unfold main_uploads.
    assert (Hbound : camera_variable a <> None).
    { unfold a, main_take_picture. cbn [take_picture_attempts]. rewrite Hconstructor.
      destruct (camera_take_picture c w1) as [[u|e] w2]; [simpl; discriminate|].
      pose proof (take_picture_attempts_facts 2 (Some c) 1 w2) as H2.
      cbn zeta in H2. destruct H2 as (Hkeep & _). apply Hkeep. discriminate. }
    destruct (camera_variable a); [reflexivity | contradiction].
  - split; [exact Hnot|].
    intro H3. destruct (picture_taken a) eqn:E; [|reflexivity].
    destruct (Htaken eq_refl) as [_ Hlt]. lia.
Qed.

End MainFacts.

Lemma main_uploads_without_picture_witness :
  let a := fst (main_take_picture (Camera___init__ no_configuration)
                  (camera_take_picture_20 (two_level_device 0 0)
                     sample_render_text sample_render_image sample_develop)
                  (initial_world None None)) in
  main_uploads a = true /\
  (waits a <= 3)%nat /\
  (picture_taken a = false <-> waits a = 3%nat).
Proof.
  apply (main_uploads_without_picture (Camera___init__ no_configuration)
           (camera_take_picture_20 (two_level_device 0 0)
              sample_render_text sample_render_image sample_develop)
           (initial_world None None) (initial_world None None)
           (plain_camera false)).
  reflexivity.
Defined.

(** A night without any light, calibration off: three rounds, three
    captures, three exceptions, no picture, and [main] still goes on to
    upload. *)
Example main_in_the_dark :
  exists w',
    main_take_picture (Camera___init__ no_configuration)
      (camera_take_picture_20 (two_level_device 0 0)
         sample_render_text sample_render_image sample_develop)
      (initial_world None None)
    = ({| camera_variable := Some (plain_camera false);
          picture_taken := false;
          waits := 3 |}, w') /\
    shots w' = [None; None; None].
Proof. eexists. split; [vm_compute; reflexivity | reflexivity]. Qed.

(** ** The number of captures of a call *)

(** X17: with fuel for 20 passes or more, [shoot_picture] returns for
    every device and in either mode, normally or with an exception,
    having made at least 1 and at most 21 captures. *)
Theorem shoot_picture_bounded_captures (dev : Device) (self : Camera)
  (w : World) (extra : nat) :
  exists r w',
    shoot_picture dev (20 + extra) self w = Some (r, w') /\
    (1 <= List.length (shots w') - List.length (shots w) <= 21)%nat.
Proof. exact (shoot_picture_terminates dev self w extra). Qed.
